(** * STS replay events, event DAG and simulated entities

    A shallow embedding of [sts/replay_event.py] and [sts/entities.py]:
    the JSON codec of the event classes, [EventDag] (pruning, splitting,
    peeking), the [proceed] methods with the replay loop of
    [EventWatcher.run], the intercepted connection and [Link].

    Python values are embedded as follows.  A raised exception is the
    [Raise] case of [result]; objects passed through the codec unchanged
    are kept as [json] values; Python ints are [Z]; tuples are Rocq
    lists or pairs; dicts with string keys are [gmap string _].  A loop
    or a recursion that need not end takes a bound [fuel] on its
    iterations.  Code of collaborators that is not part of the two
    modules is modelled from the specification, and marked so. *)

From Stdlib Require Import ZArith Lia QArith Ascii.
From stdpp Require Import base option list gmap strings pretty countable.

Open Scope Z_scope.

(** ** Python prelude *)

Module Py.

(** The exception classes the modelled code can raise. *)
Inductive exn : Type :=
  | ValueError
  | KeyError
  | TypeError
  | IndexError
  | NameError
  | AttributeError
  | RuntimeError
  | AssertionError
  | IOError
  | SystemExit (code : Z).

Inductive result (A : Type) : Type :=
  | Ok (a : A)
  | Raise (e : exn).
Global Arguments Ok {A} a.
Global Arguments Raise {A} e.

Global Instance result_ret : MRet result := λ A, @Ok A.
Global Instance result_bind : MBind result := λ A B f m,
  match m with Ok a => f a | Raise e => Raise e end.
Global Instance result_fmap : FMap result := λ A B f m,
  match m with Ok a => Ok (f a) | Raise e => Raise e end.

Definition is_ok {A} (r : result A) : bool :=
  match r with Ok _ => true | Raise _ => false end.

(** [assert c]: AssertionError when the condition is false. *)
Definition py_assert (c : bool) : result unit :=
  if c then Ok () else Raise AssertionError.

(** Values as [json.loads] builds them: None, bools, ints, strings, lists
    and dicts.  JSON numbers with a fraction are outside the embedding. *)
#[local] Unset Elimination Schemes.
Inductive json : Type :=
  | JNull
  | JBool (b : bool)
  | JInt (n : Z)
  | JStr (s : string)
  | JArr (items : list json)
  | JObj (fields : list (string * json)).
#[local] Set Elimination Schemes.

(** Induction over [json] that reaches the values nested in arrays and
    objects. *)
Section json_induction.
Variable P : json → Prop.
Hypothesis Hnull : P JNull.
Hypothesis Hbool : ∀ b, P (JBool b).
Hypothesis Hint : ∀ n, P (JInt n).
Hypothesis Hstr : ∀ s, P (JStr s).
Hypothesis Harr : ∀ l, Forall P l → P (JArr l).
Hypothesis Hobj : ∀ fs, Forall (λ kv, P kv.2) fs → P (JObj fs).

Fixpoint json_nested_ind (j : json) : P j :=
  match j with
  | JNull => Hnull
  | JBool b => Hbool b
  | JInt n => Hint n
  | JStr s => Hstr s
  | JArr l =>
      Harr l ((fix go (l : list json) : Forall P l :=
                 match l with
                 | [] => Forall_nil_2 P
                 | x :: l' => Forall_cons_2 P x l' (json_nested_ind x) (go l')
                 end) l)
  | JObj fs =>
      Hobj fs ((fix go (fs : list (string * json))
                  : Forall (λ kv, P kv.2) fs :=
                  match fs with
                  | [] => Forall_nil_2 _
                  | kv :: fs' =>
                      Forall_cons_2 (λ kv, P kv.2) kv fs'
                        (json_nested_ind kv.2) (go fs')
                  end) fs)
  end.
End json_induction.

(** [json] is countable, through stdpp's generic trees: it can key a
    [gmap], as labels and controller ids key Python dicts. *)
Definition json_leaf : Type := unit + bool + Z + string.

Fixpoint json_to_tree (j : json) : gen_tree json_leaf :=
  match j with
  | JNull => GenLeaf (inl (inl (inl ())))
  | JBool b => GenLeaf (inl (inl (inr b)))
  | JInt n => GenLeaf (inl (inr n))
  | JStr s => GenLeaf (inr s)
  | JArr l => GenNode 0 (map json_to_tree l)
  | JObj fs =>
      GenNode 1 (map (λ kv, GenNode 2 [GenLeaf (inr kv.1); json_to_tree kv.2]) fs)
  end.

Fixpoint tree_to_json (t : gen_tree json_leaf) : json :=
  match t with
  | GenLeaf (inl (inl (inl _))) => JNull
  | GenLeaf (inl (inl (inr b))) => JBool b
  | GenLeaf (inl (inr n)) => JInt n
  | GenLeaf (inr s) => JStr s
  | GenNode 0 l => JArr (map tree_to_json l)
  | GenNode _ l =>
      JObj (map (λ t, match t with
                      | GenNode _ [GenLeaf (inr k); v] => (k, tree_to_json v)
                      | _ => (EmptyString, JNull)
                      end) l)
  end.

Lemma tree_to_json_to_tree (j : json) : tree_to_json (json_to_tree j) = j.
Proof.
  induction j as [| | | |l IH|fs IH] using json_nested_ind; simpl; try done.
  - f_equal. induction IH as [|x l Hx _ IHl]; simpl; [done|].
    by rewrite Hx, IHl.
  - f_equal. induction IH as [|[k v] fs Hx _ IHl]; simpl; [done|].
    simpl in Hx. by rewrite Hx, IHl.
Qed.

Global Instance json_eq_dec : EqDecision json.
Proof.
  refine (λ x y, cast_if (decide (json_to_tree x = json_to_tree y)));
    abstract (by first
      [ rewrite <-(tree_to_json_to_tree x), <-(tree_to_json_to_tree y); congruence
      | congruence ]).
Defined.

Global Instance json_countable : Countable json :=
  inj_countable' json_to_tree tree_to_json tree_to_json_to_tree.

(** *** Built-in operations on these values *)

(** Truth value of an object, as [not], [if] and [while] take it. *)
Definition truthy (v : json) : bool :=
  match v with
  | JNull => false
  | JBool b => b
  | JInt n => negb (n =? 0)
  | JStr s => negb (bool_decide (s = EmptyString))
  | JArr l => negb (bool_decide (l = []))
  | JObj fs => negb (bool_decide (fs = []))
  end.

(** Can the value be hashed, that is, used as a dict key or set member?
    Lists and dicts cannot. *)
Definition hashable (v : json) : bool :=
  match v with JArr _ | JObj _ => false | _ => true end.

(** The key under which a dict holds a hashable value.  A dict finds
    its keys by [==] and [hash], and [True == 1] and [False == 0] with
    equal hashes: a bool and that int are one key.  None, ints and
    strings are equal to themselves only. *)
Definition dict_key (k : json) : json :=
  match k with
  | JBool b => JInt (if b then 1 else 0)
  | _ => k
  end.

Fixpoint string_chars (s : string) : list json :=
  match s with
  | EmptyString => []
  | String a s' => JStr (String a EmptyString) :: string_chars s'
  end.

(** [v[i]] for a literal index [i >= 0]. *)
Definition getitem_int (v : json) (i : nat) : result json :=
  match v with
  | JArr l => match l !! i with Some x => Ok x | None => Raise IndexError end
  | JStr s => match string_chars s !! i with Some x => Ok x | None => Raise IndexError end
  | JObj _ => Raise KeyError
  | JNull | JBool _ | JInt _ => Raise TypeError
  end.

(** [tuple(v)]: the items of a list, the characters of a string, the
    keys of a dict. *)
Definition tuple (v : json) : result (list json) :=
  match v with
  | JArr l => Ok l
  | JStr s => Ok (string_chars s)
  | JObj fs => Ok (map (λ kv, JStr kv.1) fs)
  | JNull | JBool _ | JInt _ => Raise TypeError
  end.

(** Decimal literals, as [int(s)] reads a string: blanks around, an
    optional sign, then at least one digit. *)
Fixpoint lstrip (s : string) : string :=
  match s with
  | String a s' => if Ascii.is_space a then lstrip s' else s
  | EmptyString => EmptyString
  end.

Definition strip (s : string) : string :=
  String.rev (lstrip (String.rev (lstrip s))).

Fixpoint digits_value (acc : Z) (s : string) : option Z :=
  match s with
  | EmptyString => Some acc
  | String a s' =>
      match Ascii.is_nat a with
      | Some d => digits_value (10 * acc + Z.of_nat d) s'
      | None => None
      end
  end.

Definition unsigned_literal (s : string) : option Z :=
  match s with
  | EmptyString => None
  | _ => digits_value 0 s
  end.

Definition int_of_string (s : string) : option Z :=
  match strip s with
  | String "+"%char r => unsigned_literal r
  | String "-"%char r => Z.opp <$> unsigned_literal r
  | r => unsigned_literal r
  end.

(** [int(v)] *)
Definition int (v : json) : result Z :=
  match v with
  | JInt n => Ok n
  | JBool b => Ok (if b then 1 else 0)
  | JStr s => match int_of_string s with Some n => Ok n | None => Raise ValueError end
  | JNull | JArr _ | JObj _ => Raise TypeError
  end.

(** The left operand of [field in json_hash]: a dict, or (as two callers
    pass it) a string, where [in] is the substring test. *)
Inductive container : Type :=
  | Dict (d : gmap string json)
  | Str (s : string).

Definition contains (c : container) (field : string) : bool :=
  match c with
  | Dict d => bool_decide (is_Some (d !! field))
  | Str s => bool_decide (is_Some (String.index 0 field s))
  end.

(** [d[k]] on a dict: KeyError when the key is absent. *)
Definition dict_get {K V} `{Countable K} (d : gmap K V) (k : K) : result V :=
  match d !! k with Some v => Ok v | None => Raise KeyError end.

End Py.

Import Py.

(** ** sts/entities.py *)

Module Entities.

(** A port object of the OpenFlow library ([ofp_phy_port]); two ports
    are equal when their fields are. *)
Record ofp_phy_port : Type := {
  port_no : Z;
  hw_addr : Z;
  port_name : string;
}.

Global Instance ofp_phy_port_eq_dec : EqDecision ofp_phy_port.
Proof. solve_decision. Defined.

(** References to connection objects: connections are shared between a
    switch, the god scheduler and the I/O worker, and mutated in place. *)
Definition conn_ref : Type := positive.

(** An OpenFlow message with its fingerprint. *)
Record ofp_message : Type := {
  ofp_fingerprint : json;
  ofp_xid : Z;
}.

Global Instance ofp_message_eq_dec : EqDecision ofp_message.
Proof. solve_decision. Defined.

(** What the attribute [on_message_received] can hold: None, as the
    base class leaves it, or the bound method
    [self.insert_into_god_scheduler]. *)
Inductive message_callback : Type :=
  | NoCallback
  | InsertIntoGodScheduler.

(** The handler a switch registers, named by the switch that owns it. *)
Record switch_handler : Type := { handler_of_dpid : Z }.

(** class DeferredOFConnection(OFConnection).  Beside the attributes
    [__init__] sets, [peer_controller_id] is what [get_controller_id()]
    answers and [currently_blocked] is the blocked flag; both come with
    the base class, which is absent, and are taken from the spec. *)
Record DeferredOFConnection : Type := {
  conn_dpid : Z;
  peer_controller_id : list json;
  on_message_received : message_callback;
  true_on_message_handler : option switch_handler;
  currently_blocked : bool;
}.

(** One entry of the god scheduler's pending queue: the arguments of
    [insert_pending_message(dpid, controller_id, ofp_msg, connection)]. *)
Record PendingMessage : Type := {
  pm_dpid : Z;
  pm_controller_id : list json;
  pm_msg : ofp_message;
  pm_conn : conn_ref;
}.

(** One call of a switch's true message handler:
    [handler(connection, ofp_message)]. *)
Record Delivery : Type := {
  dl_handler : switch_handler;
  dl_conn : conn_ref;
  dl_msg : ofp_message;
}.

(** The objects the connections live among: the heap of connection
    objects, the god scheduler's queue in arrival order, and the
    messages handed to switches so far, most recent last. *)
Record Net : Type := {
  conns : gmap conn_ref DeferredOFConnection;
  pending : list PendingMessage;
  delivered : list Delivery;
}.

Definition set_conn (r : conn_ref) (c : DeferredOFConnection) (w : Net) : Net :=
  {| conns := <[r := c]> (conns w); pending := pending w; delivered := delivered w |}.

(** Dereferencing a connection that does not exist has no counterpart in
    Python; it is reported as an AttributeError. *)
Definition deref (w : Net) (r : conn_ref) : result DeferredOFConnection :=
  match conns w !! r with Some c => Ok c | None => Raise AttributeError end.

(** Modelled from the spec: the god scheduler's [insert_pending_message]
    (sts/god_scheduler.py is absent) appends one entry to the pending
    queue, and delivers nothing. *)
Definition insert_pending_message
    (dpid : Z) (cid : list json) (msg : ofp_message) (conn : conn_ref) (w : Net) : Net :=
  {| conns := conns w;
     pending := pending w ++ [ {| pm_dpid := dpid; pm_controller_id := cid;
                                  pm_msg := msg; pm_conn := conn |} ];
     delivered := delivered w |}.

(** Modelled from the spec: calling the switch's handler (pox code, absent)
    delivers the message to the switch; the call is recorded. *)
Definition call_switch_handler
    (h : switch_handler) (conn : conn_ref) (msg : ofp_message) (w : Net) : Net :=
  {| conns := conns w; pending := pending w;
     delivered := delivered w ++ [ {| dl_handler := h; dl_conn := conn; dl_msg := msg |} ] |}.

(** DeferredOFConnection.__init__: a new connection object at [self],
    with the message callback replaced and no handler stored. *)
Definition DeferredOFConnection_init
    (self : conn_ref) (cid : list json) (dpid : Z) (w : Net) : Net :=
  set_conn self
    {| conn_dpid := dpid;
       peer_controller_id := cid;
       on_message_received := InsertIntoGodScheduler;
       true_on_message_handler := None;
       currently_blocked := false |} w.

(** DeferredOFConnection.insert_into_god_scheduler *)
Definition insert_into_god_scheduler
    (self : conn_ref) (ofp_msg : ofp_message) (w : Net) : result Net :=
  c ← deref w self;
  Ok (insert_pending_message (conn_dpid c) (peer_controller_id c) ofp_msg self w).

(** DeferredOFConnection.set_message_handler *)
Definition set_message_handler
    (self : conn_ref) (handler : switch_handler) (w : Net) : result Net :=
  c ← deref w self;
  Ok (set_conn self
        {| conn_dpid := conn_dpid c;
           peer_controller_id := peer_controller_id c;
           on_message_received := on_message_received c;
           true_on_message_handler := Some handler;
           currently_blocked := currently_blocked c |} w).

(** DeferredOFConnection.allow_message_receipt: calling the stored
    handler; while it is still None the call is a TypeError. *)
Definition allow_message_receipt
    (self : conn_ref) (ofp_message : ofp_message) (w : Net) : result Net :=
  c ← deref w self;
  match true_on_message_handler c with
  | Some h => Ok (call_switch_handler h self ofp_message w)
  | None => Raise TypeError
  end.

(** Modelled from the spec: the base class OFConnection (pox, absent)
    hands every message read from the controller's socket to
    [self.on_message_received(self, msg)]; calling the attribute while
    it is None is a TypeError. *)
Definition receive_from_controller
    (self : conn_ref) (msg : ofp_message) (w : Net) : result Net :=
  c ← deref w self;
  match on_message_received c with
  | InsertIntoGodScheduler => insert_into_god_scheduler self msg w
  | NoCallback => Raise TypeError
  end.

(** Modelled from the spec: the blocked flag of a connection, as
    [block()] and [unblock()] (absent from this module) set it. *)
Definition set_blocked (b : bool) (c : DeferredOFConnection) : DeferredOFConnection :=
  {| conn_dpid := conn_dpid c;
     peer_controller_id := peer_controller_id c;
     on_message_received := on_message_received c;
     true_on_message_handler := true_on_message_handler c;
     currently_blocked := b |}.

(** Modelled from the spec: [connection.block()] (absent from this
    module) sets the blocked flag of the connection object. *)
Definition block (self : conn_ref) (w : Net) : result Net :=
  c ← deref w self; Ok (set_conn self (set_blocked true c) w).

(** Modelled from the spec: [connection.unblock()] (absent from this
    module) clears the blocked flag of the connection object. *)
Definition unblock (self : conn_ref) (w : Net) : result Net :=
  c ← deref w self; Ok (set_conn self (set_blocked false c) w).

(** The operations other parties perform on an intercepted connection. *)
Inductive conn_op : Type :=
  | OpReceive (msg : ofp_message)
  | OpSetHandler (h : switch_handler)
  | OpAllow (msg : ofp_message).

Definition run_op (self : conn_ref) (op : conn_op) (w : Net) : result Net :=
  match op with
  | OpReceive msg => receive_from_controller self msg w
  | OpSetHandler h => set_message_handler self h w
  | OpAllow msg => allow_message_receipt self msg w
  end.

Fixpoint run_ops (self : conn_ref) (ops : list conn_op) (w : Net) : result Net :=
  match ops with
  | [] => Ok w
  | op :: ops' => w' ← run_op self op w; run_ops self ops' w'
  end.

(** class FuzzSoftwareSwitch: the attributes the modelled methods read. *)
Record FuzzSoftwareSwitch : Type := {
  dpid : Z;
  ports : gmap Z ofp_phy_port;
  failed : bool;
  uuid2connection : gmap (list json) conn_ref;
}.

Global Instance FuzzSoftwareSwitch_eq_dec : EqDecision FuzzSoftwareSwitch.
Proof. solve_decision. Defined.

(** FuzzSoftwareSwitch.get_connection *)
Definition get_connection (self : FuzzSoftwareSwitch) (uuid : list json) : result conn_ref :=
  if negb (forallb hashable uuid) then Raise TypeError
  else if bool_decide (uuid2connection self !! uuid = None)
  then Raise ValueError
  else dict_get (uuid2connection self) uuid.

(** class Link.  The attributes hold port objects once [__init__] has
    returned. *)
Record Link : Type := {
  start_software_switch : FuzzSoftwareSwitch;
  start_port : ofp_phy_port;
  end_software_switch : FuzzSoftwareSwitch;
  end_port : ofp_phy_port;
}.

(** What a caller may pass for a port: an int, a port object, or
    something else. *)
Inductive port_arg : Type :=
  | PortNo (n : Z)
  | PortObj (p : ofp_phy_port)
  | PortOther (v : json).

(** [assert_type(name, port, ofp_phy_port, none_ok=False)] *)
Definition assert_port_type (p : port_arg) : result ofp_phy_port :=
  match p with
  | PortObj p => Ok p
  | PortNo _ | PortOther _ => Raise AssertionError
  end.

(** Link.__init__.  An int is looked up among the switch's ports; note
    that the assertion for [end_port] reads the start switch's ports. *)
Definition Link_init
    (start_software_switch : FuzzSoftwareSwitch) (start_port : port_arg)
    (end_software_switch : FuzzSoftwareSwitch) (end_port : port_arg) : result Link :=
  start_port ← match start_port with
               | PortNo n =>
                   _ ← py_assert (bool_decide (is_Some (ports start_software_switch !! n)));
                   PortObj <$> dict_get (ports start_software_switch) n
               | _ => Ok start_port
               end;
  end_port ← match end_port with
             | PortNo n =>
                 _ ← py_assert (bool_decide (is_Some (ports start_software_switch !! n)));
                 PortObj <$> dict_get (ports end_software_switch) n
             | _ => Ok end_port
             end;
  start_port ← assert_port_type start_port;
  end_port ← assert_port_type end_port;
  Ok {| start_software_switch := start_software_switch;
        start_port := start_port;
        end_software_switch := end_software_switch;
        end_port := end_port |}.

(** Link.__eq__, for two Links (the other operand's type check is
    decided by the typing). *)
Definition Link_eq (self other : Link) : bool :=
  bool_decide (start_software_switch self = start_software_switch other)
  && bool_decide (start_port self = start_port other)
  && bool_decide (end_software_switch self = end_software_switch other)
  && bool_decide (end_port self = end_port other).

(** Link.reversed_link *)
Definition reversed_link (self : Link) : result Link :=
  Link_init (end_software_switch self) (PortObj (end_port self))
            (start_software_switch self) (PortObj (start_port self)).

End Entities.

(** ** sts/replay_event.py: the event classes and their JSON codec *)

Module ReplayEvent.
Import Entities.

(** The logical time of an event, a pair of seconds and microseconds.
    The codec stores what the trace holds, unconverted. *)
Record SyncTime : Type := {
  seconds : json;
  microSeconds : json;
}.

(** Modelled from the spec: [SyncTime.as_float] (sts/syncproto/base.py is
    absent) is seconds plus microseconds over a million. *)
Definition as_float (t : SyncTime) : result Q :=
  match seconds t, microSeconds t with
  | JInt s, JInt us => Ok (inject_Z s + inject_Z us / 1000000)%Q
  | _, _ => Raise TypeError
  end.

(** Modelled from the spec: the fingerprints [DPFingerprint(v)] and
    [OFFingerprint(v)] (sts/input_traces/fingerprints.py is absent) are
    opaque tuples; each wraps the value it is built from. *)
Record DPFingerprint : Type := { dp_value : json }.
Record OFFingerprint : Type := { of_value : json }.

(** Modelled from the spec: [json.dumps] writes a SyncTime as the array
    [[seconds, microSeconds]] and a fingerprint as the tuple it wraps. *)
Definition dumps_SyncTime (t : SyncTime) : json := JArr [seconds t; microSeconds t].
Definition dumps_DPFingerprint (fp : DPFingerprint) : json := dp_value fp.
Definition dumps_OFFingerprint (fp : OFFingerprint) : json := of_value fp.

(** The concrete event classes with their own attributes, typed as the
    [from_json] of each class builds them: [int(...)] gives a [Z], a
    pair is a 2-tuple, a list is a [tuple(...)], and [json] is a value
    taken from the trace as it is. *)
Inductive EventBody : Type :=
  | SwitchFailure (dpid : Z)
  | SwitchRecovery (dpid : Z)
  | LinkFailure (start_dpid start_port_no end_dpid end_port_no : Z)
  | LinkRecovery (start_dpid start_port_no end_dpid end_port_no : Z)
  | ControllerFailure (controller_id : json * Z)
  | ControllerRecovery (controller_id : json * Z)
  | HostMigration (old_ingress_dpid old_ingress_port_no
                   new_ingress_dpid new_ingress_port_no : Z)
  | PolicyChange (request_type : json)
  | TrafficInjection
  | WaitTime (wait_time : json)
  | CheckInvariants (fail_on_error : json) (invariant_check : string)
  | ControlChannelBlock (dpid : json) (controller_id : list json)
  | ControlChannelUnblock (dpid : json) (controller_id : list json)
  | DataplaneDrop (fingerprint : DPFingerprint)
  | DataplanePermit (fingerprint : DPFingerprint)
  | ControlMessageReceive (dpid : json) (controller_id : list json)
                          (fingerprint : OFFingerprint)
  | ControllerStateChange (controller_id : list json) (fingerprint name value : json)
  | DeterministicValue.

(** class Event: the attributes every event carries. *)
Record Event : Type := {
  label : json;
  time : SyncTime;
  dependent_labels : list json;
  body : EventBody;
}.

Global Instance SyncTime_eq_dec : EqDecision SyncTime.
Proof. solve_decision. Defined.
Global Instance DPFingerprint_eq_dec : EqDecision DPFingerprint.
Proof. solve_decision. Defined.
Global Instance OFFingerprint_eq_dec : EqDecision OFFingerprint.
Proof. solve_decision. Defined.
Global Instance EventBody_eq_dec : EqDecision EventBody.
Proof. solve_decision. Defined.
Global Instance Event_eq_dec : EqDecision Event.
Proof. solve_decision. Defined.

(** [self.__class__.__name__] *)
Definition class_name (b : EventBody) : string :=
  match b with
  | SwitchFailure _ => "SwitchFailure"
  | SwitchRecovery _ => "SwitchRecovery"
  | LinkFailure _ _ _ _ => "LinkFailure"
  | LinkRecovery _ _ _ _ => "LinkRecovery"
  | ControllerFailure _ => "ControllerFailure"
  | ControllerRecovery _ => "ControllerRecovery"
  | HostMigration _ _ _ _ => "HostMigration"
  | PolicyChange _ => "PolicyChange"
  | TrafficInjection => "TrafficInjection"
  | WaitTime _ => "WaitTime"
  | CheckInvariants _ _ => "CheckInvariants"
  | ControlChannelBlock _ _ => "ControlChannelBlock"
  | ControlChannelUnblock _ _ => "ControlChannelUnblock"
  | DataplaneDrop _ => "DataplaneDrop"
  | DataplanePermit _ => "DataplanePermit"
  | ControlMessageReceive _ _ _ => "ControlMessageReceive"
  | ControllerStateChange _ _ _ _ => "ControllerStateChange"
  | DeterministicValue => "DeterministicValue"
  end.

(** [isinstance(e, InputEvent)]: the classes declared with base
    InputEvent.  ControlChannelBlock and ControlChannelUnblock are
    declared with base InternalEvent. *)
Definition is_InputEvent (b : EventBody) : bool :=
  match b with
  | SwitchFailure _ | SwitchRecovery _ | LinkFailure _ _ _ _ | LinkRecovery _ _ _ _
  | ControllerFailure _ | ControllerRecovery _ | HostMigration _ _ _ _
  | PolicyChange _ | TrafficInjection | WaitTime _ | CheckInvariants _ _ => true
  | _ => false
  end.


(** [type(e) in EventDag._failure_types] *)
Definition in_failure_types (b : EventBody) : bool :=
  match b with
  | SwitchFailure _ | LinkFailure _ _ _ _ | ControllerFailure _
  | ControlChannelBlock _ _ => true
  | _ => false
  end.

(** [type(e) in EventDag._recovery_types] *)
Definition in_recovery_types (b : EventBody) : bool :=
  match b with
  | SwitchRecovery _ | LinkRecovery _ _ _ _ | ControllerRecovery _
  | ControlChannelUnblock _ _ => true
  | _ => false
  end.

(** The class attribute [Event._label_gen = itertools.count(1)], as the
    next number it will give. *)
Definition label_gen : Type := N.
Definition label_gen_start : label_gen := 1%N.

(** Event.__init__, reached from every subclass constructor.  A label of
    None is replaced by a fresh one; no subclass passes
    [dependent_labels], so the list starts empty.  (A time of None would
    read the clock; every caller modelled here passes a time.) *)
Definition Event_init (label : json) (time : SyncTime)
    (dependent_labels : option (list json)) (body : EventBody)
    (gen : label_gen) : Event * label_gen :=
  let '(label, gen) :=
    match label with
    | JNull => (JStr ("e" +:+ pretty gen), N.succ gen)
    | _ => (label, gen)
    end in
  ({| label := label; time := time;
      dependent_labels := match dependent_labels with
                          | Some (x :: l) => x :: l
                          | _ => []
                          end;
      body := body |}, gen).

(** A subclass constructor: [super().__init__(label=label, time=time)],
    then the attributes of the class. *)
Definition new_event (body : EventBody) (label : json) (time : SyncTime)
    (gen : label_gen) : Event * label_gen :=
  Event_init label time None body gen.

(** def assert_fields_exist(json_hash, *args) *)
Fixpoint assert_fields_exist (json_hash : container) (fields : list string) : result unit :=
  match fields with
  | [] => Ok ()
  | field :: fields' =>
      if negb (contains json_hash field) then Raise ValueError
      else assert_fields_exist json_hash fields'
  end.

(** def extract_label_time(json_hash) *)
Definition extract_label_time (json_hash : gmap string json) : result (json * SyncTime) :=
  _ ← assert_fields_exist (Dict json_hash) ["label"; "time"];
  label ← dict_get json_hash "label";
  t ← dict_get json_hash "time";
  t0 ← getitem_int t 0;
  t ← dict_get json_hash "time";
  t1 ← getitem_int t 1;
  Ok (label, {| seconds := t0; microSeconds := t1 |}).

(** A static method [from_json] returns the event it builds and the
    label counter it leaves. *)
Definition built : Type := result (Event * label_gen).

(** [int(json_hash[key])] *)
Definition int_field (json_hash : gmap string json) (key : string) : result Z :=
  v ← dict_get json_hash key; int v.

Definition SwitchFailure_from_json (json_hash : gmap string json) (gen : label_gen) : built :=
  '(label, time) ← extract_label_time json_hash;
  _ ← assert_fields_exist (Dict json_hash) ["dpid"];
  dpid ← int_field json_hash "dpid";
  Ok (new_event (SwitchFailure dpid) label time gen).

Definition SwitchRecovery_from_json (json_hash : gmap string json) (gen : label_gen) : built :=
  '(label, time) ← extract_label_time json_hash;
  _ ← assert_fields_exist (Dict json_hash) ["dpid"];
  dpid ← int_field json_hash "dpid";
  Ok (new_event (SwitchRecovery dpid) label time gen).

Definition LinkFailure_from_json (json_hash : gmap string json) (gen : label_gen) : built :=
  '(label, time) ← extract_label_time json_hash;
  _ ← assert_fields_exist (Dict json_hash)
        ["start_dpid"; "start_port_no"; "end_dpid"; "end_port_no"];
  start_dpid ← int_field json_hash "start_dpid";
  start_port_no ← int_field json_hash "start_port_no";
  end_dpid ← int_field json_hash "end_dpid";
  end_port_no ← int_field json_hash "end_port_no";
  Ok (new_event (LinkFailure start_dpid start_port_no end_dpid end_port_no) label time gen).

Definition LinkRecovery_from_json (json_hash : gmap string json) (gen : label_gen) : built :=
  '(label, time) ← extract_label_time json_hash;
  _ ← assert_fields_exist (Dict json_hash)
        ["start_dpid"; "start_port_no"; "end_dpid"; "end_port_no"];
  start_dpid ← int_field json_hash "start_dpid";
  start_port_no ← int_field json_hash "start_port_no";
  end_dpid ← int_field json_hash "end_dpid";
  end_port_no ← int_field json_hash "end_port_no";
  Ok (new_event (LinkRecovery start_dpid start_port_no end_dpid end_port_no) label time gen).

(** [(controller_id[0], int(controller_id[1]))] *)
Definition controller_pair (controller_id : json) : result (json * Z) :=
  c0 ← getitem_int controller_id 0;
  c1 ← getitem_int controller_id 1;
  c1 ← int c1;
  Ok (c0, c1).

(** ControllerFailure.from_json.  The call
    [assert_fields_exist('controller_id')] passes the field name as the
    container and no field to look for. *)
Definition ControllerFailure_from_json (json_hash : gmap string json) (gen : label_gen) : built :=
  '(label, time) ← extract_label_time json_hash;
  _ ← assert_fields_exist (Str "controller_id") [];
  controller_id ← dict_get json_hash "controller_id";
  controller_id ← controller_pair controller_id;
  Ok (new_event (ControllerFailure controller_id) label time gen).

(** ControllerRecovery.from_json.  Its last line reads
    [return ControllerFailure(controller_id, label=label, time=time)]. *)
Definition ControllerRecovery_from_json (json_hash : gmap string json) (gen : label_gen) : built :=
  '(label, time) ← extract_label_time json_hash;
  _ ← assert_fields_exist (Str "controller_id") [];
  controller_id ← dict_get json_hash "controller_id";
  controller_id ← controller_pair controller_id;
  Ok (new_event (ControllerFailure controller_id) label time gen).

Definition HostMigration_from_json (json_hash : gmap string json) (gen : label_gen) : built :=
  '(label, time) ← extract_label_time json_hash;
  _ ← assert_fields_exist (Dict json_hash)
        ["old_ingress_dpid"; "old_ingress_port_no";
         "new_ingress_dpid"; "new_ingress_port_no"];
  old_ingress_dpid ← int_field json_hash "old_ingress_dpid";
  old_ingress_port_no ← int_field json_hash "old_ingress_port_no";
  new_ingress_dpid ← int_field json_hash "new_ingress_dpid";
  new_ingress_port_no ← int_field json_hash "new_ingress_port_no";
  Ok (new_event (HostMigration old_ingress_dpid old_ingress_port_no
                               new_ingress_dpid new_ingress_port_no) label time gen).

Definition PolicyChange_from_json (json_hash : gmap string json) (gen : label_gen) : built :=
  '(label, time) ← extract_label_time json_hash;
  _ ← assert_fields_exist (Dict json_hash) ["request_type"];
  request_type ← dict_get json_hash "request_type";
  Ok (new_event (PolicyChange request_type) label time gen).

Definition TrafficInjection_from_json (json_hash : gmap string json) (gen : label_gen) : built :=
  '(label, time) ← extract_label_time json_hash;
  Ok (new_event TrafficInjection label time gen).

Definition WaitTime_from_json (json_hash : gmap string json) (gen : label_gen) : built :=
  '(label, time) ← extract_label_time json_hash;
  _ ← assert_fields_exist (Dict json_hash) ["wait_time"];
  wait_time ← dict_get json_hash "wait_time";
  Ok (new_event (WaitTime wait_time) label time gen).

Section InvariantChecker.
(** The names bound in the class InvariantChecker
    ([InvariantChecker.__dict__]); invariant_checker.py is absent.  A
    check is named by its method name. *)
Variable InvariantChecker_dict : gset string.

(** [method_name not in InvariantChecker.__dict__] *)
Definition unknown_method (method_name : json) : result bool :=
  match method_name with
  | JStr s => Ok (bool_decide (s ∉ InvariantChecker_dict))
  | JArr _ | JObj _ => Raise TypeError
  | _ => Ok true
  end.

Definition CheckInvariants_from_json (json_hash : gmap string json) (gen : label_gen) : built :=
  '(label, time) ← extract_label_time json_hash;
  let fail_on_error := JBool false in
  fail_on_error ← (if contains (Dict json_hash) "fail_on_error"
                   then dict_get json_hash "fail_on_error"
                   else Ok fail_on_error);
  let invariant_check := "check_correspondence" in
  invariant_check ← (if contains (Dict json_hash) "invariant_check"
                     then
                       method_name ← dict_get json_hash "invariant_check";
                       unknown ← unknown_method method_name;
                       if (unknown : bool) then Raise ValueError
                       else match method_name with
                            | JStr s => Ok s
                            | _ => Raise ValueError
                            end
                     else Ok invariant_check);
  Ok (new_event (CheckInvariants fail_on_error invariant_check) label time gen).
End InvariantChecker.

Definition ControlChannelBlock_from_json (json_hash : gmap string json) (gen : label_gen) : built :=
  '(label, time) ← extract_label_time json_hash;
  _ ← assert_fields_exist (Dict json_hash) ["dpid"; "controller_id"];
  dpid ← dict_get json_hash "dpid";
  controller_id ← dict_get json_hash "controller_id";
  controller_id ← tuple controller_id;
  Ok (new_event (ControlChannelBlock dpid controller_id) label time gen).

Definition ControlChannelUnblock_from_json (json_hash : gmap string json) (gen : label_gen) : built :=
  '(label, time) ← extract_label_time json_hash;
  _ ← assert_fields_exist (Dict json_hash) ["dpid"; "controller_id"];
  dpid ← dict_get json_hash "dpid";
  controller_id ← dict_get json_hash "controller_id";
  controller_id ← tuple controller_id;
  Ok (new_event (ControlChannelUnblock dpid controller_id) label time gen).

Definition DataplaneDrop_from_json (json_hash : gmap string json) (gen : label_gen) : built :=
  '(label, time) ← extract_label_time json_hash;
  _ ← assert_fields_exist (Dict json_hash) ["fingerprint"];
  fingerprint ← dict_get json_hash "fingerprint";
  Ok (new_event (DataplaneDrop {| dp_value := fingerprint |}) label time gen).

Definition DataplanePermit_from_json (json_hash : gmap string json) (gen : label_gen) : built :=
  '(label, time) ← extract_label_time json_hash;
  _ ← assert_fields_exist (Dict json_hash) ["fingerprint"];
  fingerprint ← dict_get json_hash "fingerprint";
  Ok (new_event (DataplanePermit {| dp_value := fingerprint |}) label time gen).

Definition ControlMessageReceive_from_json (json_hash : gmap string json) (gen : label_gen) : built :=
  '(label, time) ← extract_label_time json_hash;
  _ ← assert_fields_exist (Dict json_hash) ["dpid"; "controller_id"; "fingerprint"];
  dpid ← dict_get json_hash "dpid";
  controller_id ← dict_get json_hash "controller_id";
  controller_id ← tuple controller_id;
  fingerprint ← dict_get json_hash "fingerprint";
  Ok (new_event (ControlMessageReceive dpid controller_id {| of_value := fingerprint |})
                label time gen).

(** ControllerStateChange.from_json.  The asserted fields start with
    'dpid', which the class has no attribute for. *)
Definition ControllerStateChange_from_json (json_hash : gmap string json) (gen : label_gen) : built :=
  '(label, time) ← extract_label_time json_hash;
  _ ← assert_fields_exist (Dict json_hash)
        ["dpid"; "controller_id"; "fingerprint"; "name"; "value"];
  controller_id ← dict_get json_hash "controller_id";
  controller_id ← tuple controller_id;
  fingerprint ← dict_get json_hash "fingerprint";
  name ← dict_get json_hash "name";
  value ← dict_get json_hash "value";
  Ok (new_event (ControllerStateChange controller_id fingerprint name value) label time gen).

(** Event.to_json: [json.dumps] of the instance's attributes and its
    class name, given as the object [json.loads] reads back from that
    text.  Tuples are written as arrays; a function (the
    [invariant_check] attribute of CheckInvariants) is not serializable
    and [json.dumps] raises TypeError. *)
Definition attribute_fields (b : EventBody) : result (list (string * json)) :=
  match b with
  | SwitchFailure dpid | SwitchRecovery dpid => Ok [("dpid", JInt dpid)]
  | LinkFailure sd sp ed ep | LinkRecovery sd sp ed ep =>
      Ok [("start_dpid", JInt sd); ("start_port_no", JInt sp);
          ("end_dpid", JInt ed); ("end_port_no", JInt ep)]
  | ControllerFailure cid | ControllerRecovery cid =>
      Ok [("controller_id", JArr [cid.1; JInt cid.2])]
  | HostMigration od op nd np =>
      Ok [("old_ingress_dpid", JInt od); ("old_ingress_port_no", JInt op);
          ("new_ingress_dpid", JInt nd); ("new_ingress_port_no", JInt np)]
  | PolicyChange request_type => Ok [("request_type", request_type)]
  | TrafficInjection => Ok []
  | WaitTime wait_time => Ok [("wait_time", wait_time)]
  | CheckInvariants _ _ => Raise TypeError
  | ControlChannelBlock dpid cid | ControlChannelUnblock dpid cid =>
      Ok [("dpid", dpid); ("controller_id", JArr cid)]
  | DataplaneDrop fp | DataplanePermit fp =>
      Ok [("fingerprint", dumps_DPFingerprint fp)]
  | ControlMessageReceive dpid cid fp =>
      Ok [("dpid", dpid); ("controller_id", JArr cid);
          ("fingerprint", dumps_OFFingerprint fp)]
  | ControllerStateChange cid fp name value =>
      Ok [("controller_id", JArr cid); ("fingerprint", fp); ("name", name);
          ("value", value)]
  | DeterministicValue => Ok []
  end.

Definition to_json (self : Event) : result (gmap string json) :=
  attrs ← attribute_fields (body self);
  let fields : gmap string json :=
    list_to_map (("label", label self)
                 :: ("time", dumps_SyncTime (time self))
                 :: ("dependent_labels", JArr (dependent_labels self))
                 :: attrs) in
  Ok (<["class" := JStr (class_name (body self))]> fields).

Section Loader.
Variable InvariantChecker_dict : gset string.

(** Modelled from the spec: the trace loader (sts/input_traces, absent)
    dispatches on the [class] key to the static [from_json] of the
    class of that name; an unknown class is a structural error.
    DeterministicValue defines no [from_json]. *)
Definition from_json (json_hash : gmap string json) (gen : label_gen) : built :=
  match json_hash !! "class" with
  | Some (JStr c) =>
      if bool_decide (c = "SwitchFailure") then SwitchFailure_from_json json_hash gen
      else if bool_decide (c = "SwitchRecovery") then SwitchRecovery_from_json json_hash gen
      else if bool_decide (c = "LinkFailure") then LinkFailure_from_json json_hash gen
      else if bool_decide (c = "LinkRecovery") then LinkRecovery_from_json json_hash gen
      else if bool_decide (c = "ControllerFailure") then ControllerFailure_from_json json_hash gen
      else if bool_decide (c = "ControllerRecovery") then ControllerRecovery_from_json json_hash gen
      else if bool_decide (c = "HostMigration") then HostMigration_from_json json_hash gen
      else if bool_decide (c = "PolicyChange") then PolicyChange_from_json json_hash gen
      else if bool_decide (c = "TrafficInjection") then TrafficInjection_from_json json_hash gen
      else if bool_decide (c = "WaitTime") then WaitTime_from_json json_hash gen
      else if bool_decide (c = "CheckInvariants")
           then CheckInvariants_from_json InvariantChecker_dict json_hash gen
      else if bool_decide (c = "ControlChannelBlock") then ControlChannelBlock_from_json json_hash gen
      else if bool_decide (c = "ControlChannelUnblock") then ControlChannelUnblock_from_json json_hash gen
      else if bool_decide (c = "DataplaneDrop") then DataplaneDrop_from_json json_hash gen
      else if bool_decide (c = "DataplanePermit") then DataplanePermit_from_json json_hash gen
      else if bool_decide (c = "ControlMessageReceive") then ControlMessageReceive_from_json json_hash gen
      else if bool_decide (c = "ControllerStateChange") then ControllerStateChange_from_json json_hash gen
      else if bool_decide (c = "DeterministicValue") then Raise AttributeError
      else Raise ValueError
  | _ => Raise ValueError
  end.
End Loader.

(** Structural equality of two events: same class, label, time and
    class attributes (the dependent labels apart). *)
Definition structurally_equal (e1 e2 : Event) : bool :=
  bool_decide (body e1 = body e2)
  && bool_decide (label e1 = label e2)
  && bool_decide (time e1 = time e2).

(** *** The simulation the events act on

    sts/simulation_state.py, sts/topology.py, the controller manager, the
    patch panel, the god scheduler and the sync callback are absent; the
    simulation is modelled by what the [proceed] methods use of it. *)

(** namedtuple PendingStateChange *)
Record PendingStateChange : Type := {
  psc_controller_id : list json;
  psc_time : SyncTime;
  psc_fingerprint : json;
  psc_name : json;
  psc_value : json;
}.

Global Instance PendingStateChange_eq_dec : EqDecision PendingStateChange.
Proof. solve_decision. Defined.

(** Modelled from the spec: the key
    [PendingReceive(dpid, controller_id, fingerprint)] of the god
    scheduler (sts/god_scheduler.py is absent). *)
Record PendingReceive : Type := {
  pr_dpid : json;
  pr_controller_id : list json;
  pr_fingerprint : OFFingerprint;
}.

(** Calls on collaborators whose effect lies outside the replay engine,
    in the order they were made. *)
Inductive FacadeCall : Type :=
  | CrashSwitch (sw : FuzzSoftwareSwitch)
  | RecoverSwitch (sw : FuzzSoftwareSwitch)
  | SeverLink (link : Link)
  | RepairLink (link : Link)
  | MigrateHost (old_ingress_dpid old_ingress_port_no
                 new_ingress_dpid new_ingress_port_no : Z)
  | KillController (controller_id : json * Z)
  | RebootController (controller_id : json * Z)
  | InjectTraceEvent
  | DropDpEvent (fp : DPFingerprint)
  | PermitDpEvent (fp : DPFingerprint)
  | Sleep (secs : Q).

Record Simulation : Type := {
  (** connections, the god scheduler's queue, messages delivered *)
  net : Net;
  (** topology: the switches by dpid *)
  dpid2switch : gmap Z FuzzSoftwareSwitch;
  (** controller_manager: the ids of the controllers it knows *)
  controllers : list (json * Z);
  (** dataplane_trace: None, or a trace *)
  dataplane_trace : option unit;
  (** patch_panel: fingerprints of the buffered data-plane events *)
  buffered_dp_events : list DPFingerprint;
  (** controller_sync_callback: state changes observed, not yet collected *)
  pending_state_changes : list PendingStateChange;
  (** what each named invariant check finds on this simulation *)
  invariant_violations : string → list json;
  calls : list FacadeCall;
}.

Definition with_net (w : Net) (sim : Simulation) : Simulation :=
  {| net := w; dpid2switch := dpid2switch sim; controllers := controllers sim;
     dataplane_trace := dataplane_trace sim;
     buffered_dp_events := buffered_dp_events sim;
     pending_state_changes := pending_state_changes sim;
     invariant_violations := invariant_violations sim;
     calls := calls sim |}.

Definition with_buffered (l : list DPFingerprint) (sim : Simulation) : Simulation :=
  {| net := net sim; dpid2switch := dpid2switch sim; controllers := controllers sim;
     dataplane_trace := dataplane_trace sim;
     buffered_dp_events := l;
     pending_state_changes := pending_state_changes sim;
     invariant_violations := invariant_violations sim;
     calls := calls sim |}.

Definition with_pending_state_changes (l : list PendingStateChange)
    (sim : Simulation) : Simulation :=
  {| net := net sim; dpid2switch := dpid2switch sim; controllers := controllers sim;
     dataplane_trace := dataplane_trace sim;
     buffered_dp_events := buffered_dp_events sim;
     pending_state_changes := l;
     invariant_violations := invariant_violations sim;
     calls := calls sim |}.

(** Recording a call on a collaborator. *)
Definition call (c : FacadeCall) (sim : Simulation) : Simulation :=
  {| net := net sim; dpid2switch := dpid2switch sim; controllers := controllers sim;
     dataplane_trace := dataplane_trace sim;
     buffered_dp_events := buffered_dp_events sim;
     pending_state_changes := pending_state_changes sim;
     invariant_violations := invariant_violations sim;
     calls := calls sim ++ [c] |}.

(** Removing the first occurrence of [x], as [list.remove] does. *)
Fixpoint remove_first {A} `{EqDecision A} (x : A) (l : list A) : list A :=
  match l with
  | [] => []
  | y :: l' => if decide (x = y) then l' else y :: remove_first x l'
  end.

(** Modelled from the spec: [topology.get_switch(dpid)]
    (sts/topology.py is absent) answers the switch of that dpid; an
    unknown dpid is an error. *)
Definition get_switch (sim : Simulation) (dpid : json) : result FuzzSoftwareSwitch :=
  let find n :=
    match dpid2switch sim !! n with Some sw => Ok sw | None => Raise RuntimeError end in
  match dpid with
  | JInt n => find n
  | JBool b => find (if b then 1 else 0)
  | JArr _ | JObj _ => Raise TypeError
  | JNull | JStr _ => Raise RuntimeError
  end.

(** Modelled from the spec: [controller_manager.get_controller(id)]
    (the controller manager is absent) answers the controller of that
    id; an unknown id is an error. *)
Definition get_controller (sim : Simulation) (controller_id : json * Z)
    : result (json * Z) :=
  if negb (hashable controller_id.1) then Raise TypeError
  else if bool_decide (controller_id ∈ controllers sim) then Ok controller_id
  else Raise ValueError.

(** [time.sleep(secs)] lets [secs] seconds of wall-clock time pass; the
    call is recorded. *)
Definition sleep (secs : Q) (sim : Simulation) : Simulation := call (Sleep secs) sim.

(** Modelled from the spec: [get_buffered_dp_event] of the patch panel
    (absent) answers a buffered event with that fingerprint, or None. *)
Definition get_buffered_dp_event (sim : Simulation) (fp : DPFingerprint)
    : option DPFingerprint :=
  if bool_decide (fp ∈ buffered_dp_events sim) then Some fp else None.

(** Modelled from the spec: [drop_dp_event] of the patch panel (absent)
    takes the event out of the buffer and drops it. *)
Definition drop_dp_event (dp_event : DPFingerprint) (sim : Simulation) : Simulation :=
  call (DropDpEvent dp_event)
       (with_buffered (remove_first dp_event (buffered_dp_events sim)) sim).

(** Modelled from the spec: [permit_dp_event] of the patch panel
    (absent) takes the event out of the buffer and forwards it. *)
Definition permit_dp_event (dp_event : DPFingerprint) (sim : Simulation) : Simulation :=
  call (PermitDpEvent dp_event)
       (with_buffered (remove_first dp_event (buffered_dp_events sim)) sim).

(** Does a queue entry answer a pending receive? *)
Definition matches (p : PendingReceive) (m : PendingMessage) : bool :=
  bool_decide (pr_dpid p = JInt (pm_dpid m))
  && bool_decide (pr_controller_id p = pm_controller_id m)
  && bool_decide (of_value (pr_fingerprint p) = ofp_fingerprint (pm_msg m)).

(** Modelled from the spec: [god_scheduler.message_waiting]
    (sts/god_scheduler.py is absent) checks for an entry under the key
    without removing it. *)
Definition message_waiting (sim : Simulation) (p : PendingReceive) : bool :=
  existsb (matches p) (pending (net sim)).

Fixpoint pop_first (f : PendingMessage → bool) (l : list PendingMessage)
    : option (PendingMessage * list PendingMessage) :=
  match l with
  | [] => None
  | m :: l' =>
      if f m then Some (m, l')
      else '(x, r) ← pop_first f l'; Some (x, m :: r)
  end.

(** Modelled from the spec: [god_scheduler.schedule]
    (sts/god_scheduler.py is absent) pops the head entry under the key
    and calls [connection.allow_message_receipt(msg)]; with no entry it
    fails with a precondition error. *)
Definition schedule (p : PendingReceive) (sim : Simulation) : result Simulation :=
  match pop_first (matches p) (pending (net sim)) with
  | None => Raise RuntimeError
  | Some (m, rest) =>
      let w := {| conns := conns (net sim); pending := rest;
                  delivered := delivered (net sim) |} in
      w ← allow_message_receipt (pm_conn m) (pm_msg m) w;
      Ok (with_net w sim)
  end.

(** Modelled from the spec: [state_change_pending] of the sync callback
    (absent) tells whether a matching change was observed. *)
Definition state_change_pending (sim : Simulation) (p : PendingStateChange) : bool :=
  bool_decide (p ∈ pending_state_changes sim).

(** Modelled from the spec: [gc_pending_state_change] of the sync
    callback (absent) forgets the observation. *)
Definition gc_pending_state_change (p : PendingStateChange) (sim : Simulation) : Simulation :=
  with_pending_state_changes (remove_first p (pending_state_changes sim)) sim.

(** *** proceed *)

(** The values [proceed] returns. *)
Definition True_ : json := JBool true.
Definition False_ : json := JBool false.
Definition None_ : json := JNull.

(** What a call of [proceed] gives: the returned value and the
    simulation it leaves, or an exception. *)
Definition proceeded : Type := result (json * Simulation).

(** def get_link(link_event, simulation) *)
Definition get_link (start_dpid start_port_no end_dpid end_port_no : Z)
    (simulation : Simulation) : result Link :=
  start_software_switch ← get_switch simulation (JInt start_dpid);
  end_software_switch ← get_switch simulation (JInt end_dpid);
  Link_init start_software_switch (PortNo start_port_no)
            end_software_switch (PortNo end_port_no).

(** [time.sleep(wait_time)] after [log.info("... %f" % wait_time)]: a
    number is needed, and not a negative one. *)
Definition sleep_value (wait_time : json) (sim : Simulation) : result Simulation :=
  match wait_time with
  | JInt n => if n <? 0 then Raise IOError else Ok (sleep (inject_Z n) sim)
  | JBool b => Ok (sleep (inject_Z (if b then 1 else 0)) sim)
  | _ => Raise TypeError
  end.

(** The [proceed] method of each class.  A body that is only [pass]
    returns None. *)
Definition proceed (self : Event) (simulation : Simulation) : proceeded :=
  match body self with
  | SwitchFailure dpid =>
      software_switch ← get_switch simulation (JInt dpid);
      Ok (True_, call (CrashSwitch software_switch) simulation)
  | SwitchRecovery dpid =>
      software_switch ← get_switch simulation (JInt dpid);
      Ok (True_, call (RecoverSwitch software_switch) simulation)
  | LinkFailure sd sp ed ep =>
      link ← get_link sd sp ed ep simulation;
      Ok (True_, call (SeverLink link) simulation)
  | LinkRecovery sd sp ed ep =>
      link ← get_link sd sp ed ep simulation;
      Ok (True_, call (RepairLink link) simulation)
  | ControllerFailure controller_id =>
      controller ← get_controller simulation controller_id;
      Ok (True_, call (KillController controller) simulation)
  | ControllerRecovery controller_id =>
      controller ← get_controller simulation controller_id;
      Ok (True_, call (RebootController controller) simulation)
  | HostMigration od op nd np =>
      Ok (True_, call (MigrateHost od op nd np) simulation)
  | PolicyChange _ =>
      Ok (None_, simulation)
  | TrafficInjection =>
      match dataplane_trace simulation with
      | None => Raise RuntimeError
      | Some _ => Ok (True_, call InjectTraceEvent simulation)
      end
  | WaitTime wait_time =>
      simulation ← sleep_value wait_time simulation;
      Ok (True_, simulation)
  | CheckInvariants fail_on_error invariant_check =>
      let violations := invariant_violations simulation invariant_check in
      if negb (bool_decide (violations = [])) && truthy fail_on_error
      then Raise (SystemExit 5)
      else Ok (True_, simulation)
  | ControlChannelBlock dpid controller_id =>
      switch ← get_switch simulation dpid;
      connection ← get_connection switch controller_id;
      c ← deref (net simulation) connection;
      if currently_blocked c then Raise RuntimeError
      else
        w ← block connection (net simulation);
        Ok (True_, with_net w simulation)
  | ControlChannelUnblock dpid controller_id =>
      switch ← get_switch simulation dpid;
      connection ← get_connection switch controller_id;
      c ← deref (net simulation) connection;
      if negb (currently_blocked c) then Raise RuntimeError
      else
        w ← unblock connection (net simulation);
        Ok (True_, with_net w simulation)
  | DataplaneDrop fingerprint =>
      match get_buffered_dp_event simulation fingerprint with
      | Some dp_event => Ok (True_, drop_dp_event dp_event simulation)
      | None => Ok (False_, simulation)
      end
  | DataplanePermit fingerprint =>
      match get_buffered_dp_event simulation fingerprint with
      | Some dp_event => Ok (True_, permit_dp_event dp_event simulation)
      | None => Ok (False_, simulation)
      end
  | ControlMessageReceive dpid controller_id fingerprint =>
      let pending_receive :=
        {| pr_dpid := dpid; pr_controller_id := controller_id;
           pr_fingerprint := fingerprint |} in
      if message_waiting simulation pending_receive
      then
        simulation ← schedule pending_receive simulation;
        Ok (True_, simulation)
      else Ok (False_, simulation)
  | ControllerStateChange controller_id fingerprint name value =>
      let pending_state_change :=
        {| psc_controller_id := controller_id; psc_time := time self;
           psc_fingerprint := fingerprint; psc_name := name; psc_value := value |} in
      if state_change_pending simulation pending_state_change
      then Ok (True_, gc_pending_state_change pending_state_change simulation)
      else Ok (False_, simulation)
  | DeterministicValue =>
      Ok (None_, simulation)
  end.

(** *** EventWatcher.run *)

(** How a run of the loop stands after a bounded number of calls of
    [proceed]: it returned, it raised, or it is still in the loop. *)
Inductive run_state : Type :=
  | Returned (sim : Simulation)
  | Raised (e : exn)
  | Retrying (sim : Simulation).

(** Event.__str__: [self.__class__.__name__ + ":" + self.label].  A str
    is concatenated with a string only: any other label is a
    TypeError.  (Strings are byte strings here, as everywhere in the
    embedding; a unicode label with a character that [str] cannot
    encode is outside it.) *)
Definition Event_str (self : Event) : result string :=
  match label self with
  | JStr label => Ok (class_name (body self) +:+ ":" +:+ label)
  | _ => Raise TypeError
  end.

(** EventWatcher._pre: [log.debug("Executing %s" % str(self.event))].
    The message is built before [log.debug] is called, whatever the log
    level; the log line itself leaves the simulation as it is. *)
Definition _pre (event : Event) : result unit :=
  s ← Event_str event;
  let message := "Executing " +:+ s in
  Ok ().

(** EventWatcher._post:
    [log.debug("Finished Executing %s" % str(self.event))]. *)
Definition _post (event : Event) : result unit :=
  s ← Event_str event;
  let message := "Finished Executing " +:+ s in
  Ok ().

(** The loop of EventWatcher.run: [while not
    self.event.proceed(simulation): time.sleep(0.05); log.debug(".")].
    [fuel] bounds the calls of [proceed]. *)
Fixpoint run_loop (fuel : nat) (event : Event) (simulation : Simulation) : run_state :=
  match fuel with
  | O => Retrying simulation
  | S fuel' =>
      match proceed event simulation with
      | Raise e => Raised e
      | Ok (v, simulation) =>
          if negb (truthy v)
          then run_loop fuel' event (sleep (5 # 100) simulation)
          else Returned simulation
      end
  end.

(** EventWatcher.run: [self._pre()], the loop, [self._post()]. *)
Definition run (fuel : nat) (event : Event) (simulation : Simulation) : run_state :=
  match _pre event with
  | Raise e => Raised e
  | Ok _ =>
      match run_loop fuel event simulation with
      | Returned simulation =>
          match _post event with
          | Raise e => Raised e
          | Ok _ => Returned simulation
          end
      | Raised e => Raised e
      | Retrying simulation => Retrying simulation
      end
  end.


End ReplayEvent.

(** ** sts/replay_event.py: class EventDag

    The class is embedded method by method and statement by statement,
    as written.  Three places of the source are not Python: the
    statement [list_idx = del self._event_to_index[event]] of
    [_remove_event], and the name [self_recovery_types] and the cut-off
    last branch of [_mark_invalid_input_sequences]; how each is read is
    said at the method.  The class attributes [_failure_types] and
    [_recovery_types] are read as the sets of classes they list. *)

Module Dag.
Import Entities ReplayEvent.

(** A Python dict whose keys only have an equality test here: the pairs
    of the dict, at most one per key. *)
Definition alist (K V : Type) : Type := list (K * V).

Definition alist_lookup {K V} `{EqDecision K} (k : K) (d : alist K V) : option V :=
  snd <$> find (λ kv, bool_decide (kv.1 = k)) d.

Definition alist_delete {K V} `{EqDecision K} (k : K) (d : alist K V) : alist K V :=
  filter (λ kv, kv.1 ≠ k) d.

Definition alist_insert {K V} `{EqDecision K} (k : K) (v : V) (d : alist K V) : alist K V :=
  alist_delete k d ++ [(k, v)].

(** An EventDag instance.  [_event_to_index] is keyed by event objects;
    Event defines no [__eq__], so two events are the same key when they
    are the same object, which the embedding reads as the same value. *)
Record EventDag : Type := {
  _events_list : list Event;
  _event_to_index : alist Event Z;
  _label2event : gmap json Event;  (* kept by [dict_key] *)
}.

(** [EventDag._peek_seconds = 10.0] *)
Definition _peek_seconds : Q := 10%Q.

(** [len(l)] *)
Definition len {A} (l : list A) : Z := Z.of_nat (length l).

(** [{e : i for i, e in enumerate(events)}] *)
Definition index_events (events : list Event) : alist Event Z :=
  foldl (λ d ie, alist_insert ie.2 (Z.of_nat ie.1) d) [] (imap (λ i e, (i, e)) events).

(** [{event.label : event for event in events}]: TypeError at the first
    label that cannot be hashed.  The dict is kept by [dict_key]: of
    two events whose labels are equal under [==] (as 1 and True are),
    the later one takes the entry of the earlier. *)
Fixpoint label_events (events : list Event) (d : gmap json Event) : result (gmap json Event) :=
  match events with
  | [] => Ok d
  | event :: events' =>
      if hashable (label event)
      then label_events events' (<[dict_key (label event) := event]> d)
      else Raise TypeError
  end.

(** The property [fingerprint] of the failure classes. *)
Inductive Fingerprint : Type :=
  | FpSwitch (dpid : Z)
  | FpLink (start_dpid start_port_no end_dpid end_port_no : Z)
  | FpController (controller_id : json * Z)
  | FpChannel (dpid : json) (controller_id : list json).

Global Instance Fingerprint_eq_dec : EqDecision Fingerprint.
Proof. solve_decision. Defined.

Definition fingerprint_of (b : EventBody) : result Fingerprint :=
  match b with
  | SwitchFailure dpid | SwitchRecovery dpid => Ok (FpSwitch dpid)
  | LinkFailure sd sp ed ep | LinkRecovery sd sp ed ep => Ok (FpLink sd sp ed ep)
  | ControllerFailure cid | ControllerRecovery cid => Ok (FpController cid)
  | ControlChannelBlock dpid cid | ControlChannelUnblock dpid cid => Ok (FpChannel dpid cid)
  | _ => Raise AttributeError
  end.

Definition fingerprint_hashable (fp : Fingerprint) : bool :=
  match fp with
  | FpSwitch _ | FpLink _ _ _ _ => true
  | FpController cid => hashable cid.1
  | FpChannel dpid cid => hashable dpid && forallb hashable cid
  end.

(** A name that is bound nowhere: reading it raises NameError. *)
Definition unbound_name {A} : result A := Raise NameError.

(** EventDag._mark_invalid_input_sequences.  The loop records each
    failure under its fingerprint.  The branch for recoveries tests
    [type(event) in self_recovery_types], a name bound nowhere, so the
    first event that is no failure raises NameError before any
    [dependent_labels] is appended to; the last branch of the source is
    cut off after [type(event) == Dataplae] and has no body. *)
Fixpoint _mark_invalid_input_sequences (events : list Event)
    (fingerprint2previousfailure : alist Fingerprint Event) : result unit :=
  match events with
  | [] => Ok ()
  | event :: events' =>
      if in_failure_types (body event) then
        fp ← fingerprint_of (body event);
        if fingerprint_hashable fp
        then _mark_invalid_input_sequences events'
               (alist_insert fp event fingerprint2previousfailure)
        else Raise TypeError
      else
        self_recovery_types ← @unbound_name (list string);
        Raise NameError
  end.

(** EventDag.__init__ *)
Definition EventDag_init (events : list Event) (is_view : bool) : result EventDag :=
  let _event_to_index := index_events events in
  _label2event ← label_events events ∅;
  let self := {| _events_list := events;
                 _event_to_index := _event_to_index;
                 _label2event := _label2event |} in
  if negb is_view
  then _ ← _mark_invalid_input_sequences events []; Ok self
  else Ok self.

(** What a method that mutates the DAG leaves: its outcome, and the DAG
    as it stands then (also when the method raised). *)
Definition mutated : Type := result unit * EventDag.

(** [x in obj] where [obj] is an Event.  The class defines none of
    [__contains__], [__iter__] and [__getitem__]: TypeError. *)
Definition in_event (x : json) (obj : Event) : result bool := Raise TypeError.

(** [self._label2event[label]] *)
Definition label2event_get (self : EventDag) (label : json) : result Event :=
  if hashable label then dict_get (_label2event self) (dict_key label)
  else Raise TypeError.

Definition del_label (label : json) (self : EventDag) : EventDag :=
  {| _events_list := _events_list self;
     _event_to_index := _event_to_index self;
     _label2event := delete (dict_key label) (_label2event self) |}.

Definition del_index (event : Event) (self : EventDag) : EventDag :=
  {| _events_list := _events_list self;
     _event_to_index := alist_delete event (_event_to_index self);
     _label2event := _label2event self |}.

(** EventDag._remove_event.  [fuel] bounds the depth of the recursion
    over dependent labels.

    The first test reads [event.label in self._label2event[event.label]]:
    the right operand is an event, not the dict.  The statement
    [list_idx = del self._event_to_index[event]] is read as taking the
    entry out of the dict and keeping its index; the next one names
    [self._event_list], an attribute that is never set (the list is
    [self._events_list]): AttributeError. *)
Fixpoint _remove_event (fuel : nat) (self : EventDag) (event : Event) : option mutated :=
  match fuel with
  | O => None
  | S fuel' =>
      match label2event_get self (label event) with
      | Raise e => Some (Raise e, self)
      | Ok looked =>
          match in_event (label event) looked with
          | Raise e => Some (Raise e, self)
          | Ok present =>
              let self := if present then del_label (label event) self else self in
              match alist_lookup event (_event_to_index self) with
              | Some list_idx =>
                  let self := del_index event self in
                  Some (Raise AttributeError, self)
              | None =>
                  (fix dependents (labels : list json) (self : EventDag) : option mutated :=
                     match labels with
                     | [] => Some (Ok (), self)
                     | label :: labels' =>
                         if negb (hashable label) then Some (Raise TypeError, self)
                         else
                           match _label2event self !! dict_key label with
                           | Some dependent_event =>
                               match _remove_event fuel' self dependent_event with
                               | Some (Ok _, self) => dependents labels' self
                               | other => other
                               end
                           | None => dependents labels' self
                           end
                     end) (dependent_labels event) self
              end
          end
      end
  end.

(** EventDag.peek.  The wait times go to the local dict
    [event2wait_time].  In the loop the assignment
    [event2wait_time[event] = wait_time] reads the name [event], which is
    bound nowhere in the function (the loop variables are
    [current_event] and [next_event]).  The dict is neither returned nor
    stored on the DAG. *)
Fixpoint peek_loop (input_events : list Event) (event2wait_time : alist Event Q)
    : result (alist Event Q) :=
  match input_events with
  | current_event :: (next_event :: _) as rest =>
      t ← as_float (time next_event);
      let wait_time := (t + _peek_seconds)%Q in
      event ← @unbound_name Event;
      peek_loop rest (alist_insert event wait_time event2wait_time)
  | _ => Ok event2wait_time
  end.

Definition input_events_of (self : EventDag) : list Event :=
  filter (λ e, is_InputEvent (body e) = true) (_events_list self).

Definition peek_wait_times (self : EventDag) : result (alist Event Q) :=
  let input_events := input_events_of self in
  event2wait_time ← peek_loop input_events [];
  last_event ← match list.last (_events_list self) with
               | Some e => Ok e | None => Raise IndexError end;
  t ← as_float (time last_event);
  let last_wait_time := (t + _peek_seconds)%Q in
  last_input ← match list.last input_events with
               | Some e => Ok e | None => Raise IndexError end;
  Ok (alist_insert last_input last_wait_time event2wait_time).

Definition peek (self : EventDag) : mutated :=
  if bool_decide (len (input_events_of self) = 0) then (Ok (), self)
  else (_ ← peek_wait_times self; Ok (), self).

(** EventDag.remove_events *)
Fixpoint remove_each (fuel : nat) (self : EventDag) (events : list Event) : option mutated :=
  match events with
  | [] => Some (Ok (), self)
  | event :: events' =>
      match _remove_event fuel self event with
      | Some (Ok _, self) => remove_each fuel self events'
      | other => other
      end
  end.

Definition remove_events (fuel : nat) (self : EventDag) (ignored_portion : list Event)
    : option mutated :=
  match remove_each fuel self
          (filter (λ e, is_InputEvent (body e) && negb (in_recovery_types (body e)) = true)
                  ignored_portion) with
  | Some (Ok _, self) => Some (peek self)
  | other => other
  end.

(** EventDag.ignore_portion *)
Definition ignore_portion (fuel : nat) (self : EventDag) (ignored_portion : list Event)
    : option (result EventDag) :=
  match EventDag_init (_events_list self) true with
  | Raise e => Some (Raise e)
  | Ok dag =>
      match remove_events fuel dag ignored_portion with
      | None => None
      | Some (Ok _, dag) => Some (Ok dag)
      | Some (Raise e, _) => Some (Raise e)
      end
  end.

(** [l[a:b]], with Python's reading of negative and too large bounds. *)
Definition clamp_index (n i : Z) : Z :=
  if i <? 0 then Z.max (i + n) 0 else Z.min i n.

Definition slice {A} (l : list A) (a b : Z) : list A :=
  let a := clamp_index (len l) a in
  let b := clamp_index (len l) b in
  take (Z.to_nat (b - a)) (drop (Z.to_nat a) l).

(** [int(math.ceil(n * 1.0 / k))] for [k > 0]: the quotient rounded up
    (exact in floating point below 2^53). *)
Definition ceil_div (n k : Z) : Z := - ((- n) / k).

(** The while loop of split_inputs; [fuel] bounds its iterations. *)
Fixpoint split_loop (fuel : nat) (events : list Event) (split_ways : Z)
    (splits : list (list Event)) (split_interval start_idx split_idx : Z)
    : option (list (list Event)) :=
  match fuel with
  | O => None
  | S fuel' =>
      if start_idx <? len events then
        let splits := splits ++ [slice events start_idx split_idx] in
        let start_idx := split_idx in
        let split_interval :=
          if (split_idx + split_interval >=? len events)
             && (len splits =? split_ways - 2)
          then split_interval - 1 else split_interval in
        let split_idx := split_idx + split_interval in
        split_loop fuel' events split_ways splits split_interval start_idx split_idx
      else Some splits
  end.

(** EventDag.split_inputs; None when the loop has not ended within
    [fuel] iterations. *)
Definition split_inputs (fuel : nat) (self : EventDag) (split_ways : Z)
    : option (result (list (list Event))) :=
  let events := _events_list self in
  if len events =? 0 then Some (Ok [[]])
  else if split_ways =? 1 then Some (Ok [events])
  else if (split_ways <? 1) || (split_ways >? len events) then Some (Raise ValueError)
  else
    let splits := [] in
    let split_interval := ceil_div (len events) split_ways in
    let start_idx := 0 in
    let split_idx := start_idx + split_interval in
    Ok <$> split_loop fuel events split_ways splits split_interval start_idx split_idx.

End Dag.

(** ** sts/entities.py: hashes of links, host interfaces *)

Module HostEntities.
Import Entities.

Section Hashes.
(** Python's [hash] of a switch object, of a port object, of an int and
    of a string, and the value Python makes of what a [__hash__] method
    returns: built-ins, taken as they are. *)
Variable switch_hash : FuzzSoftwareSwitch → Z.
Variable port_hash : ofp_phy_port → Z.
Variable int_hash : Z → Z.
Variable str_hash : string → Z.
Variable hash_result : Z → Z.

(** Link.__hash__ *)
Definition Link_hash (self : Link) : Z :=
  hash_result (switch_hash (start_software_switch self) + port_hash (start_port self)
               + switch_hash (end_software_switch self) + port_hash (end_port self)).

(** class HostInterface.  The hardware address is kept as the int
    [hw_addr.toInt()] gives, each IP as the int [ip.toUnsignedN()]
    gives. *)
Record HostInterface : Type := {
  if_hw_addr : Z;
  if_ips : list Z;
  if_name : string;
}.

(** What a caller may pass as [ip_or_ips]: a list, or one address. *)
Inductive ip_arg : Type :=
  | IpList (ips : list Z)
  | OneIp (ip : Z).

(** HostInterface.__init__ *)
Definition HostInterface_init (hw_addr : Z) (ip_or_ips : ip_arg) (name : string)
    : HostInterface :=
  let ip_or_ips := match ip_or_ips with
                   | IpList ips => ips
                   | OneIp ip => [ip]
                   end in
  {| if_hw_addr := hw_addr; if_ips := ip_or_ips; if_name := name |}.

(** The loop of HostInterface.__eq__: False at the first IP of [self]
    that is not among the other's. *)
Fixpoint all_ips_in (ips other_ip_ints : list Z) : bool :=
  match ips with
  | [] => true
  | ip :: ips' =>
      if negb (bool_decide (ip ∈ other_ip_ints)) then false
      else all_ips_in ips' other_ip_ints
  end.

(** HostInterface.__eq__, for two HostInterfaces. *)
Definition HostInterface_eq (self other : HostInterface) : bool :=
  if negb (bool_decide (if_hw_addr self = if_hw_addr other)) then false
  else
    let other_ip_ints := if_ips other in
    if negb (all_ips_in (if_ips self) other_ip_ints) then false
    else if negb (bool_decide (length (if_ips other) = length (if_ips self))) then false
    else if negb (bool_decide (if_name self = if_name other)) then false
    else true.

(** HostInterface.__hash__ *)
Definition HostInterface_hash (self : HostInterface) : Z :=
  let hash_code := int_hash (if_hw_addr self) in
  let hash_code := foldl (λ hash_code ip, hash_code + int_hash ip) hash_code (if_ips self) in
  let hash_code := hash_code + str_hash (if_name self) in
  hash_result hash_code.

End Hashes.

End HostEntities.

(** ** config/experiment_config_lib.py and simulator.py *)

Module Config.

(** [s.replace(old, new)] for a non-empty [old]: the occurrences of
    [old] are replaced from the left, none overlapping another.  [skip]
    counts the characters of an occurrence still to pass over. *)
Fixpoint replace_go (old new : string) (skip : nat) (s : string) : string :=
  match s with
  | EmptyString => EmptyString
  | String c s' =>
      match skip with
      | S skip' => replace_go old new skip' s'
      | O =>
          if String.prefix old s
          then new +:+ replace_go old new (String.length old - 1) s'
          else String c (replace_go old new 0 s')
      end
  end.

Definition replace (s old new : string) : string := replace_go old new 0 s.

(** [s.split()]: the words of [s] between runs of white space. *)
Definition split (s : string) : list string := String.words s.

(** [s.endswith(suffix)] *)
Fixpoint endswith (s suffix : string) : bool :=
  bool_decide (s = suffix)
  || match s with
     | EmptyString => false
     | String _ s' => endswith s' suffix
     end.

(** class ControllerConfig *)
Record ControllerConfig : Type := {
  cmdline : string;
  address : string;
  port : Z;
  name : string;
  cwd : option string;
  sync : option string;
}.

(** The class attribute [_port_gen = itertools.count(8888)], as the
    next number it will give. *)
Definition port_gen : Type := Z.
Definition port_gen_start : port_gen := 8888.

(** What [__init__] leaves: the instance, the port counter, and whether
    the warning about a missing working directory went to stderr. *)
Record constructed : Type := {
  config : ControllerConfig;
  next_port : port_gen;
  warned : bool;
}.

(** ControllerConfig.__init__.  [controller_type] is [Some] for a str
    and [None] for anything else. *)
Definition ControllerConfig_init
    (cmdline address : string) (port : option Z)
    (cwd sync controller_type : option string) (gen : port_gen) : result constructed :=
  if bool_decide (cmdline = EmptyString) then Raise RuntimeError
  else
    let '(port, gen) :=
      match port with
      | Some p => if p =? 0 then (gen, gen + 1) else (p, gen)
      | None => (gen, gen + 1)
      end in
    let name := EmptyString in
    let name :=
      match controller_type with
      | Some t => t
      | None =>
          if contains (Str cmdline) "pox" then "pox"
          else if contains (Str cmdline) "floodlight" then "floodlight"
          else name
      end in
    let no_cwd := match cwd with
                  | None | Some EmptyString => true
                  | Some _ => false
                  end in
    Ok {| config := {| cmdline := cmdline; address := address; port := port;
                       name := name; cwd := cwd; sync := sync |};
          next_port := gen;
          warned := no_cwd |}.

(** ControllerConfig.uuid *)
Definition uuid (self : ControllerConfig) : string * Z := (address self, port self).

(** ControllerConfig.expanded_cmdline; [str(port)] is the decimal
    numeral of the port. *)
Definition expanded_cmdline (self : ControllerConfig) : list string :=
  map (λ x, replace x "__port__" (pretty (port self)))
      (map (λ x, replace x "__address__" (address self))
           (split (cmdline self))).

(** simulator.py: a config given as a path is turned into a module
    name, [args.config[:-3].replace("/", ".")]. *)
Definition config_module (config : string) : string :=
  if endswith config ".py"
  then replace (String.substring 0 (String.length config - 3) config) "/" "."
  else config.

End Config.

(** * Notions and sample data for the statements *)

Import Entities ReplayEvent Dag.

(** The queue entry the connection [self] of switch [dpid] makes for a
    message from controller [cid]. *)
Definition entry_for (dpid : Z) (cid : list json) (self : conn_ref)
    (msg : ofp_message) : PendingMessage :=
  {| pm_dpid := dpid; pm_controller_id := cid; pm_msg := msg; pm_conn := self |}.

(** The messages a sequence of operations receives from the controller. *)
Fixpoint received (ops : list conn_op) : list ofp_message :=
  match ops with
  | [] => []
  | OpReceive msg :: ops' => msg :: received ops'
  | _ :: ops' => received ops'
  end.

(** The handler calls that the [allow_message_receipt] operations of a
    sequence ask for, given the handler stored at its start. *)
Fixpoint allowed (self : conn_ref) (h : option switch_handler) (ops : list conn_op)
    : list Delivery :=
  match ops with
  | [] => []
  | OpReceive _ :: ops' => allowed self h ops'
  | OpSetHandler h' :: ops' => allowed self (Some h') ops'
  | OpAllow msg :: ops' =>
      match h with
      | Some hd => {| dl_handler := hd; dl_conn := self; dl_msg := msg |}
                   :: allowed self h ops'
      | None => []
      end
  end.

Definition sample_msg (n : Z) : ofp_message :=
  {| ofp_fingerprint := JStr "flow_mod"; ofp_xid := n |}.

Definition empty_net : Net := {| conns := ∅; pending := []; delivered := [] |}.

Definition sample_ops : list conn_op :=
  [OpReceive (sample_msg 1); OpSetHandler {| handler_of_dpid := 1 |};
   OpReceive (sample_msg 2); OpAllow (sample_msg 1)].

Definition sample_cid : list json := [JStr "127.0.0.1"; JInt 8888].

(** The network after [sample_ops]: both messages queued, the first
    one delivered by the handler set in between. *)
Definition sample_net_after : Net :=
  {| conns := {[ 1%positive :=
                   {| conn_dpid := 1; peer_controller_id := sample_cid;
                      on_message_received := InsertIntoGodScheduler;
                      true_on_message_handler := Some {| handler_of_dpid := 1 |};
                      currently_blocked := false |} ]};
     pending := [entry_for 1 sample_cid 1%positive (sample_msg 1);
                 entry_for 1 sample_cid 1%positive (sample_msg 2)];
     delivered := [ {| dl_handler := {| handler_of_dpid := 1 |};
                       dl_conn := 1%positive; dl_msg := sample_msg 1 |} ] |}.

Definition channel_conn (blocked : bool) : DeferredOFConnection :=
  {| conn_dpid := 1; peer_controller_id := sample_cid;
     on_message_received := InsertIntoGodScheduler;
     true_on_message_handler := None; currently_blocked := blocked |}.

Definition channel_switch : FuzzSoftwareSwitch :=
  {| dpid := 1; ports := ∅; failed := false;
     uuid2connection := {[ sample_cid := 1%positive ]} |}.

Definition channel_sim (blocked : bool) : Simulation :=
  {| net := {| conns := {[ 1%positive := channel_conn blocked ]};
               pending := []; delivered := [] |};
     dpid2switch := {[ 1 := channel_switch ]};
     controllers := [];
     dataplane_trace := None;
     buffered_dp_events := [];
     pending_state_changes := [];
     invariant_violations := λ _, [];
     calls := [] |}.

Definition at_zero : SyncTime := {| seconds := JInt 0; microSeconds := JInt 0 |}.

Definition event_of (lbl : string) (b : EventBody) : Event :=
  {| label := JStr lbl; time := at_zero; dependent_labels := []; body := b |}.

(** The simulation after [n] passes through the body of the loop of
    [EventWatcher.run]. *)
Definition retried (n : nat) (sim : Simulation) : Simulation :=
  Nat.iter n (sleep (5 # 100)) sim.

(** [proceed] gave a falsy value and left the simulation as it was. *)
Definition not_yet (e : Event) (sim : Simulation) : Prop :=
  ∃ v, proceed e sim = Ok (v, sim) ∧ truthy v = false.

(** Case analysis along the binds and tests of a monadic body. *)
Ltac split_binds H :=
  repeat (simpl in H; unfold mbind, result_bind, fmap, result_fmap in H;
          match type of H with
          | context [match ?x with _ => _ end] => destruct x eqn:?
          end);
  simpl in H.

(** A simulation in which nothing is pending: no switch, no buffered
    packet, no waiting message, no observed state change. *)
Definition quiet_sim : Simulation :=
  {| net := empty_net;
     dpid2switch := ∅;
     controllers := [];
     dataplane_trace := None;
     buffered_dp_events := [];
     pending_state_changes := [];
     invariant_violations := λ _, [];
     calls := [] |}.

Definition drop_event : Event :=
  event_of "e1" (DataplaneDrop {| dp_value := JArr [JStr "00:00:00:00:00:01"; JInt 2048] |}).

(** The classes whose events come back from [from_json (to_json e)] with
    the class and attributes they had. *)
Definition round_trips (b : EventBody) : bool :=
  match b with
  | ControllerRecovery _ | CheckInvariants _ _ | ControllerStateChange _ _ _ _
  | DeterministicValue => false
  | _ => true
  end.

(** The object the table of per-class keys describes for
    ControllerStateChange: class, label, time, and controller_id,
    fingerprint, name, value. *)
Definition state_change_object : gmap string json :=
  list_to_map
    [("class", JStr "ControllerStateChange"); ("label", JStr "e1");
     ("time", JArr [JInt 0; JInt 0]);
     ("controller_id", JArr [JStr "127.0.0.1"; JInt 8888]);
     ("fingerprint", JStr "fp"); ("name", JStr "mastership"); ("value", JInt 1)].

(** A ControllerFailure object with no controller_id. *)
Definition failure_object_without_id : gmap string json :=
  list_to_map
    [("class", JStr "ControllerFailure"); ("label", JStr "e1");
     ("time", JArr [JInt 0; JInt 0])].

(** A switch failure at second 1 and the recovery of that switch at
    second 2; the failure names the recovery as its dependent. *)
Definition failure_e1 : Event :=
  {| label := JStr "e1";
     time := {| seconds := JInt 1; microSeconds := JInt 0 |};
     dependent_labels := [JStr "e2"];
     body := SwitchFailure 1 |}.

Definition recovery_e2 : Event :=
  {| label := JStr "e2";
     time := {| seconds := JInt 2; microSeconds := JInt 0 |};
     dependent_labels := [];
     body := SwitchRecovery 1 |}.

Definition pair_dag : EventDag :=
  {| _events_list := [failure_e1; recovery_e2];
     _event_to_index := [(failure_e1, 0); (recovery_e2, 1)];
     _label2event := <[JStr "e2" := recovery_e2]> (<[JStr "e1" := failure_e1]> ∅) |}.

(** What the loop of [split_inputs] keeps true at its head: the splits
    made so far are not empty and make up the events before
    [start_idx]; the interval is positive; and until [split_ways - 2]
    splits exist, the interval is the one the loop started with. *)
Record split_inv (events : list Event) (split_ways interval0 : Z)
    (splits : list (list Event)) (split_interval start_idx split_idx : Z) : Prop := {
  inv_start : 0 ≤ start_idx;
  inv_idx : split_idx = start_idx + split_interval;
  inv_interval : 1 ≤ split_interval;
  inv_concat : concat splits = take (Z.to_nat start_idx) events;
  inv_nonempty : Forall (λ s, s ≠ []) splits;
  inv_early : len splits < split_ways - 2 →
              split_interval = interval0 ∧ start_idx = len splits * interval0;
}.

(** The view of a list of events, as [ignore_portion] builds it. *)
Definition view_of (events : list Event) : EventDag :=
  match EventDag_init events true with
  | Ok dag => dag
  | Raise _ => {| _events_list := events; _event_to_index := []; _label2event := ∅ |}
  end.

Definition crash (n : Z) : Event :=
  {| label := JStr ("e" +:+ pretty n);
     time := {| seconds := JInt n; microSeconds := JInt 0 |};
     dependent_labels := [];
     body := SwitchFailure n |}.

Definition five_events : list Event := [crash 1; crash 2; crash 3; crash 4; crash 5].

(** The static [from_json] of each class that has one, with the name
    of the class and the fields it passes to [assert_fields_exist]
    together with [json_hash]. *)
Definition codec : Type :=
  string * list string * (gmap string json → label_gen → built).

Definition codecs (InvariantChecker_dict : gset string) : list codec :=
  [ ("SwitchFailure", ["dpid"], SwitchFailure_from_json);
    ("SwitchRecovery", ["dpid"], SwitchRecovery_from_json);
    ("LinkFailure", ["start_dpid"; "start_port_no"; "end_dpid"; "end_port_no"],
     LinkFailure_from_json);
    ("LinkRecovery", ["start_dpid"; "start_port_no"; "end_dpid"; "end_port_no"],
     LinkRecovery_from_json);
    ("ControllerFailure", [], ControllerFailure_from_json);
    ("ControllerRecovery", [], ControllerRecovery_from_json);
    ("HostMigration",
     ["old_ingress_dpid"; "old_ingress_port_no"; "new_ingress_dpid"; "new_ingress_port_no"],
     HostMigration_from_json);
    ("PolicyChange", ["request_type"], PolicyChange_from_json);
    ("TrafficInjection", [], TrafficInjection_from_json);
    ("WaitTime", ["wait_time"], WaitTime_from_json);
    ("CheckInvariants", [], CheckInvariants_from_json InvariantChecker_dict);
    ("ControlChannelBlock", ["dpid"; "controller_id"], ControlChannelBlock_from_json);
    ("ControlChannelUnblock", ["dpid"; "controller_id"], ControlChannelUnblock_from_json);
    ("DataplaneDrop", ["fingerprint"], DataplaneDrop_from_json);
    ("DataplanePermit", ["fingerprint"], DataplanePermit_from_json);
    ("ControlMessageReceive", ["dpid"; "controller_id"; "fingerprint"],
     ControlMessageReceive_from_json);
    ("ControllerStateChange", ["dpid"; "controller_id"; "fingerprint"; "name"; "value"],
     ControllerStateChange_from_json) ].

(** Every key some [from_json] looks at. *)
Definition known_keys : list string :=
  ["label"; "time"; "dpid"; "start_dpid"; "start_port_no"; "end_dpid"; "end_port_no";
   "controller_id"; "old_ingress_dpid"; "old_ingress_port_no"; "new_ingress_dpid";
   "new_ingress_port_no"; "request_type"; "wait_time"; "fail_on_error";
   "invariant_check"; "fingerprint"; "name"; "value"].

(** The classes whose attributes are ints, tuples and values of the
    trace, for which [to_json] and [from_json] are inverse. *)
Definition plain_class (b : EventBody) : bool :=
  match b with
  | SwitchFailure _ | SwitchRecovery _ | LinkFailure _ _ _ _ | LinkRecovery _ _ _ _
  | ControllerFailure _ | HostMigration _ _ _ _ | PolicyChange _ | TrafficInjection
  | WaitTime _ | ControlChannelBlock _ _ | ControlChannelUnblock _ _ => true
  | _ => false
  end.

(** Events constructed one after the other with no label given. *)
Fixpoint new_events (bodies : list EventBody) (time : SyncTime) (gen : label_gen)
    : list Event :=
  match bodies with
  | [] => []
  | b :: bodies' =>
      let '(e, gen) := new_event b JNull time gen in
      e :: new_events bodies' time gen
  end.

(** What the loop of [split_inputs] keeps true of the number of splits:
    until [split_ways - 2] splits exist the interval is the one the loop
    started with; from then on the interval is positive and the events
    left fit into the splits still allowed. *)
Record split_count_inv (events : list Event) (split_ways interval0 : Z)
    (splits : list (list Event)) (split_interval start_idx : Z) : Prop := {
  cnt_bound : len splits ≤ split_ways;
  cnt_early : len splits < split_ways - 2 →
              split_interval = interval0 ∧ start_idx = len splits * interval0;
  cnt_late : split_ways - 2 ≤ len splits →
             1 ≤ split_interval
             ∧ len events - start_idx ≤ (split_ways - len splits) * split_interval;
}.

(** What [switch.get_connection(controller_id).currently_blocked] reads
    in a simulation, for the switch of [dpid]. *)
Definition channel_blocked (sim : Simulation) (dpid : json) (cid : list json)
    : result bool :=
  switch ← get_switch sim dpid;
  connection ← get_connection switch cid;
  c ← deref (net sim) connection;
  Ok (currently_blocked c).

(** The events of a list whose label is held under the dict key [k]. *)
Definition labelled (k : json) (events : list Event) : list Event :=
  filter (λ e, dict_key (label e) = k) events.

(** Two events whose labels, 1 and True, are equal under [==]. *)
Definition labelled_1 : Event :=
  {| label := JInt 1; time := at_zero; dependent_labels := []; body := SwitchFailure 1 |}.

Definition labelled_True : Event :=
  {| label := JBool true; time := at_zero; dependent_labels := [];
     body := SwitchFailure 2 |}.

Import HostEntities Config.

(** Two switches joined by the link (1:1) -> (2:2): switch 1 has port 1
    only, switch 2 has port 2 only. *)
Definition port_of (n : Z) : ofp_phy_port :=
  {| port_no := n; hw_addr := n; port_name := "eth" +:+ pretty n |}.

Definition one_port_switch (n : Z) : FuzzSoftwareSwitch :=
  {| dpid := n; ports := {[ n := port_of n ]}; failed := false; uuid2connection := ∅ |}.

Definition two_switch_sim : Simulation :=
  {| net := empty_net;
     dpid2switch := {[ 1 := one_port_switch 1; 2 := one_port_switch 2 ]};
     controllers := [];
     dataplane_trace := None;
     buffered_dp_events := [];
     pending_state_changes := [];
     invariant_violations := λ _, [];
     calls := [] |}.

(** Does [old] occur in [s], at any position? *)
Fixpoint occurs (old s : string) : bool :=
  String.prefix old s
  || match s with
     | EmptyString => false
     | String _ s' => occurs old s'
     end.

(** Is the character [c] absent from [s]? *)
Fixpoint lacks (c : ascii) (s : string) : bool :=
  match s with
  | EmptyString => true
  | String c' s' => negb (bool_decide (c' = c)) && lacks c s'
  end.

(** A port argument that makes [__init__] draw a port: none, or zero. *)
Definition draws_port (port : option Z) : bool :=
  match port with
  | None => true
  | Some p => p =? 0
  end.

(** The configuration of config/violation_integration_test.py. *)
Definition pox_cmdline : string :=
  "./pox.py --no-cli --verbose openflow.of_01 --address=__address__ --port=__port__ sts.syncproto.pox_syncer samples.topo forwarding.l2_learning".

Definition pox_config : ControllerConfig :=
  {| cmdline := pox_cmdline; address := "127.0.0.1"; port := 8888; name := "pox";
     cwd := Some "pox"; sync := Some "tcp:localhost:18888" |}.

(** * Properties *)

(** ** Links *)

Lemma Link_init_port_objects sw1 p1 sw2 p2 :
  Link_init sw1 (PortObj p1) sw2 (PortObj p2)
  = Ok {| start_software_switch := sw1; start_port := p1;
          end_software_switch := sw2; end_port := p2 |}.
Proof. reflexivity. Qed.

Lemma Link_eq_refl (l : Link) : Link_eq l l = true.
Proof.
  unfold Link_eq. by rewrite !bool_decide_eq_true_2.
Qed.

(** C10: [reversed_link] is an involution.  A Link holds resolved port
    objects; reversing it succeeds, reversing the result succeeds, and
    what comes back equals the Link under [__eq__]. *)
Theorem reversed_link_involution (l : Link) :
  ∃ r rr, reversed_link l = Ok r ∧ reversed_link r = Ok rr ∧ Link_eq rr l = true.
Proof.
  destruct l as [sw1 p1 sw2 p2].
  eexists _, _. split; [reflexivity|]. split; [reflexivity|].
  apply Link_eq_refl.
Qed.

(** ** The intercepted connection *)

Lemma run_ops_intercepts (self : conn_ref) (ops : list conn_op) :
  ∀ (w w' : Net) (c : DeferredOFConnection),
    conns w !! self = Some c →
    on_message_received c = InsertIntoGodScheduler →
    run_ops self ops w = Ok w' →
    pending w' = pending w
                 ++ map (entry_for (conn_dpid c) (peer_controller_id c) self) (received ops)
    ∧ delivered w' = delivered w ++ allowed self (true_on_message_handler c) ops.
Proof.
  induction ops as [|op ops IH]; intros w w' c Hc Hcb Hrun; simpl in Hrun.
  - injection Hrun as <-. simpl. by rewrite !app_nil_r.
  - destruct op as [msg|h|msg]; simpl in Hrun.
    + unfold receive_from_controller, deref in Hrun. rewrite Hc in Hrun.
      simpl in Hrun. rewrite Hcb in Hrun.
      unfold insert_into_god_scheduler, deref in Hrun. rewrite Hc in Hrun.
      simpl in Hrun.
      eapply IH in Hrun; [|exact Hc|exact Hcb].
      destruct Hrun as [Hp Hd].
      simpl in Hp, Hd. split; [|exact Hd].
      rewrite Hp. simpl. by rewrite <-app_assoc.
    + unfold set_message_handler, deref in Hrun. rewrite Hc in Hrun.
      simpl in Hrun.
      eapply IH in Hrun; [|apply lookup_insert_eq|exact Hcb].
      exact Hrun.
    + unfold allow_message_receipt, deref in Hrun. rewrite Hc in Hrun.
      simpl in Hrun.
      destruct (true_on_message_handler c) as [hd|] eqn:Hh; [|discriminate].
      simpl in Hrun.
      eapply IH in Hrun; [|exact Hc|exact Hcb].
      destruct Hrun as [Hp Hd].
      simpl in Hp, Hd. split; [exact Hp|].
      rewrite Hd, Hh. by rewrite <-app_assoc.
Qed.

(** C9: every message an intercepted connection receives from its
    controller becomes one god scheduler entry (dpid, controller id,
    message, connection) and is not delivered; the switch's stored
    handler is called only by [allow_message_receipt], with the message
    it is given. *)
Theorem intercepted_messages_go_to_god_scheduler
    (w w' : Net) (self : conn_ref) (cid : list json) (dpid : Z) (ops : list conn_op)
    (Hrun : run_ops self ops (DeferredOFConnection_init self cid dpid w) = Ok w') :
  pending w' = pending w ++ map (entry_for dpid cid self) (received ops)
  ∧ delivered w' = delivered w ++ allowed self None ops.
Proof.
  exact (run_ops_intercepts self ops _ w'
           {| conn_dpid := dpid; peer_controller_id := cid;
              on_message_received := InsertIntoGodScheduler;
              true_on_message_handler := None; currently_blocked := false |}
           (lookup_insert_eq _ _ _) eq_refl Hrun).
Qed.

Lemma intercepted_messages_witness :
  run_ops 1%positive sample_ops
    (DeferredOFConnection_init 1%positive sample_cid 1 empty_net)
  = Ok sample_net_after
  ∧ pending sample_net_after
    = [entry_for 1 sample_cid 1%positive (sample_msg 1);
       entry_for 1 sample_cid 1%positive (sample_msg 2)]
  ∧ delivered sample_net_after
    = [ {| dl_handler := {| handler_of_dpid := 1 |};
           dl_conn := 1%positive; dl_msg := sample_msg 1 |} ].
Proof.
  split; [reflexivity|].
  apply (intercepted_messages_go_to_god_scheduler
           empty_net sample_net_after 1%positive sample_cid 1 sample_ops).
  reflexivity.
Defined.

(** ** Blocking and unblocking a control channel *)

Lemma set_conn_lookup (r : conn_ref) (c : DeferredOFConnection) (w : Net) :
  conns (set_conn r c w) !! r = Some c.
Proof. apply lookup_insert_eq. Qed.

(** C7: on a connection that is not blocked, ControlChannelBlock.proceed
    returns True and leaves a simulation in which the connection reads
    as blocked, while ControlChannelUnblock.proceed raises RuntimeError;
    on a blocked connection, ControlChannelBlock.proceed raises
    RuntimeError while ControlChannelUnblock.proceed returns True and
    leaves a simulation in which the connection reads as not blocked.
    In both cases the simulation left differs from the one before in
    the blocked flag of that connection only. *)
Theorem control_channel_block_unblock
    (sim : Simulation) (blk unb : Event) (dpid : json) (cid : list json)
    (switch : FuzzSoftwareSwitch) (conn : conn_ref) (c : DeferredOFConnection)
    (Hblk : body blk = ControlChannelBlock dpid cid)
    (Hunb : body unb = ControlChannelUnblock dpid cid)
    (Hsw : get_switch sim dpid = Ok switch)
    (Hconn : get_connection switch cid = Ok conn)
    (Hc : conns (net sim) !! conn = Some c) :
  channel_blocked sim dpid cid = Ok (currently_blocked c)
  ∧ (currently_blocked c = false →
     (∃ sim', proceed blk sim = Ok (True_, sim')
              ∧ channel_blocked sim' dpid cid = Ok true
              ∧ sim' = with_net (set_conn conn (set_blocked true c) (net sim)) sim)
     ∧ proceed unb sim = Raise RuntimeError)
  ∧ (currently_blocked c = true →
     proceed blk sim = Raise RuntimeError
     ∧ ∃ sim', proceed unb sim = Ok (True_, sim')
               ∧ channel_blocked sim' dpid cid = Ok false
               ∧ sim' = with_net (set_conn conn (set_blocked false c) (net sim)) sim).
Proof.
  assert (∀ b, channel_blocked
                 (with_net (set_conn conn (set_blocked b c) (net sim)) sim) dpid cid
               = Ok b) as Hafter.
  { intros b. unfold channel_blocked.
    assert (get_switch (with_net (set_conn conn (set_blocked b c) (net sim)) sim) dpid
            = Ok switch) as -> by exact Hsw.
    cbn [mbind result_bind]. rewrite Hconn. cbn [mbind result_bind].
    unfold deref. cbn [net with_net]. rewrite set_conn_lookup. reflexivity. }
  split.
  { unfold channel_blocked. rewrite Hsw. cbn [mbind result_bind]. rewrite Hconn.
    cbn [mbind result_bind]. unfold deref. by rewrite Hc. }
  unfold proceed. rewrite Hblk, Hunb, Hsw. simpl. rewrite Hconn. simpl.
  unfold block, unblock, deref. rewrite Hc. simpl.
  split; intros Hb; rewrite Hb; simpl; split; try reflexivity.
  - eexists. split; [reflexivity|]. split; [apply Hafter|reflexivity].
  - eexists. split; [reflexivity|]. split; [apply Hafter|reflexivity].
Qed.

Lemma control_channel_block_unblock_witness :
  ((∃ sim',
      proceed (event_of "e1" (ControlChannelBlock (JInt 1) sample_cid)) (channel_sim false)
      = Ok (True_, sim')
      ∧ channel_blocked sim' (JInt 1) sample_cid = Ok true
      ∧ sim' = with_net (set_conn 1%positive (set_blocked true (channel_conn false))
                                  (net (channel_sim false))) (channel_sim false))
   ∧ proceed (event_of "e2" (ControlChannelUnblock (JInt 1) sample_cid)) (channel_sim false)
     = Raise RuntimeError)
  ∧ (proceed (event_of "e1" (ControlChannelBlock (JInt 1) sample_cid)) (channel_sim true)
     = Raise RuntimeError
     ∧ ∃ sim',
         proceed (event_of "e2" (ControlChannelUnblock (JInt 1) sample_cid))
                 (channel_sim true)
         = Ok (True_, sim')
         ∧ channel_blocked sim' (JInt 1) sample_cid = Ok false
         ∧ sim' = with_net (set_conn 1%positive (set_blocked false (channel_conn true))
                                     (net (channel_sim true))) (channel_sim true)).
Proof.
  split.
  - destruct (control_channel_block_unblock (channel_sim false)
                (event_of "e1" (ControlChannelBlock (JInt 1) sample_cid))
                (event_of "e2" (ControlChannelUnblock (JInt 1) sample_cid))
                (JInt 1) sample_cid channel_switch 1%positive (channel_conn false)
                eq_refl eq_refl eq_refl eq_refl eq_refl) as (_ & Hfree & _).
    apply Hfree. reflexivity.
  - destruct (control_channel_block_unblock (channel_sim true)
                (event_of "e1" (ControlChannelBlock (JInt 1) sample_cid))
                (event_of "e2" (ControlChannelUnblock (JInt 1) sample_cid))
                (JInt 1) sample_cid channel_switch 1%positive (channel_conn true)
                eq_refl eq_refl eq_refl eq_refl eq_refl) as (_ & _ & Hheld).
    apply Hheld. reflexivity.
Defined.

(** ** The replay loop *)

Lemma retried_S (n : nat) (sim : Simulation) :
  retried (S n) sim = retried n (sleep (5 # 100) sim).
Proof.
  unfold retried. induction n as [|n IH]; [reflexivity|].
  simpl in *. by rewrite IH.
Qed.

(** [run] is the loop when the label is a string; with any other label
    [_pre] raises TypeError before the loop is entered. *)
Lemma run_by_label (fuel : nat) (e : Event) (sim : Simulation) :
  run fuel e sim
  = match label e with
    | JStr _ => run_loop fuel e sim
    | _ => Raised TypeError
    end.
Proof.
  unfold run, _pre, _post, Event_str.
  destruct (label e); try reflexivity.
  cbn [mbind result_bind]. by destruct (run_loop fuel e sim).
Qed.

Lemma run_after_falsy_results (n extra : nat) (e : Event) :
  ∀ sim, (∀ k, (k < n)%nat → not_yet e (retried k sim)) →
         run_loop (n + extra) e sim = run_loop extra e (retried n sim).
Proof.
  induction n as [|n IH]; intros sim Hfalsy; [reflexivity|].
  destruct (Hfalsy O ltac:(lia)) as (v & Hv & Hfalse).
  change (retried 0 sim) with sim in Hv.
  rewrite retried_S, <-IH.
  - cbn [Nat.add run_loop]. by rewrite Hv, Hfalse.
  - intros k Hk. rewrite <-retried_S. apply Hfalsy. lia.
Qed.












(** C8: the claim fails for PolicyChange, an InputEvent.  Its [proceed]
    is only [pass]: it returns None, which is falsy, whatever the
    simulation; the replay loop takes that as "not yet" and retries the
    event for as long as it is run.  (With a label that is no string the
    loop is not reached: [_pre] raises TypeError.) *)
Theorem PolicyChange_proceed_is_never_done
    (l : json) (t : SyncTime) (deps : list json) (request_type : json)
    (sim : Simulation) (fuel : nat) :
  let e := {| label := l; time := t; dependent_labels := deps;
              body := PolicyChange request_type |} in
  is_InputEvent (body e) = true
  ∧ proceed e sim = Ok (None_, sim)
  ∧ truthy None_ = false
  ∧ run_loop fuel e sim = Retrying (retried fuel sim)
  ∧ run fuel e sim = match l with
                     | JStr _ => Retrying (retried fuel sim)
                     | _ => Raised TypeError
                     end.
Proof.
  intros e.
  assert (run_loop fuel e sim = Retrying (retried fuel sim)) as Hloop.
  { rewrite <-(Nat.add_0_r fuel) at 1.
    apply (run_after_falsy_results fuel 0).
    intros k _. exists None_. by split. }
  repeat split; [exact Hloop|].
  rewrite run_by_label. cbn [label e]. by destruct l.
Qed.


(** ** The JSON codec *)

Lemma round_trip_of_other_classes
    (InvariantChecker_dict : gset string) (e : Event) (gen : label_gen) :
  round_trips (body e) = true →
  (to_json e ≫= λ h, from_json InvariantChecker_dict h gen)
  = Ok (new_event (body e) (label e) (time e) gen).
Proof.
  destruct e as [l [s us] deps b].
  destruct b as [| | | |[c n]| | | | | | | | |[fp]|[fp]|? ? [fp]| |];
    try discriminate; intros _; reflexivity.
Qed.

Lemma new_event_keeps_label (b : EventBody) (l : json) (t : SyncTime) (gen : label_gen) :
  l ≠ JNull →
  new_event b l t gen
  = ({| label := l; time := t; dependent_labels := []; body := b |}, gen).
Proof. intros Hl. by destruct l. Qed.

(** C1: the round trip fails for ControllerRecovery.  Its [from_json]
    ends in [return ControllerFailure(...)]: reading back what [to_json]
    wrote for a ControllerRecovery gives a ControllerFailure with that
    controller id, which is not structurally equal to the event. *)
Theorem ControllerRecovery_round_trip_gives_ControllerFailure
    (InvariantChecker_dict : gset string)
    (l : json) (t : SyncTime) (deps : list json) (c : json) (n : Z) (gen : label_gen) :
  let e := {| label := l; time := t; dependent_labels := deps;
              body := ControllerRecovery (c, n) |} in
  (to_json e ≫= λ h, from_json InvariantChecker_dict h gen)
  = Ok (new_event (ControllerFailure (c, n)) l t gen)
  ∧ structurally_equal (new_event (ControllerFailure (c, n)) l t gen).1 e = false.
Proof.
  intros e. destruct t as [s us]. split; [reflexivity|].
  unfold structurally_equal. by destruct l.
Qed.

(** C2: the claim fails for ControllerStateChange.  Its [from_json]
    asserts a field 'dpid' that the class has no use for: whatever else
    an object holds, without 'dpid' it is refused, and the object with
    exactly the keys of the table is refused with ValueError.  (A
    ControllerFailure object without controller_id is refused too, by the
    KeyError of the subscript: the assertion before it checks nothing.) *)
Theorem ControllerStateChange_from_json_requires_dpid :
  (∀ h gen, is_ok (ControllerStateChange_from_json (delete "dpid" h) gen) = false)
  ∧ ControllerStateChange_from_json state_change_object label_gen_start = Raise ValueError
  ∧ from_json ∅ state_change_object label_gen_start = Raise ValueError
  ∧ ControllerFailure_from_json failure_object_without_id label_gen_start = Raise KeyError.
Proof.
  split; [|repeat split].
  intros h gen. unfold ControllerStateChange_from_json.
  destruct (extract_label_time (delete "dpid" h)) as [[l t]|x]; [|reflexivity].
  cbn [mbind result_bind assert_fields_exist contains].
  rewrite lookup_delete_eq. reflexivity.
Qed.

(** ** Pruning and peeking *)

Lemma _remove_event_raises (fuel : nat) (self : EventDag) (event : Event) :
  ∃ x, _remove_event (S fuel) self event = Some (Raise x, self).
Proof.
  cbn [_remove_event]. unfold label2event_get, dict_get.
  destruct (hashable (label event)); [|by eexists].
  destruct (_label2event self !! dict_key (label event)); by eexists.
Qed.

Lemma remove_events_raises (fuel : nat) (self : EventDag)
    (ignored_portion : list Event) (e : Event) :
  e ∈ ignored_portion →
  is_InputEvent (body e) = true →
  in_recovery_types (body e) = false →
  ∃ x, remove_events (S fuel) self ignored_portion = Some (Raise x, self).
Proof.
  intros Hin Hinput Hrec. unfold remove_events.
  destruct (filter _ ignored_portion) as [|e0 rest] eqn:Hf.
  - assert (e ∈ filter (λ e, is_InputEvent (body e) && negb (in_recovery_types (body e)) = true)
                       ignored_portion) as Hmem.
    { apply list_elem_of_filter. split; [|done]. by rewrite Hinput, Hrec. }
    rewrite Hf in Hmem. by apply elem_of_nil in Hmem.
  - cbn [remove_each].
    destruct (_remove_event_raises fuel self e0) as [x ->]. by exists x.
Qed.

Lemma pair_dag_init : EventDag_init [failure_e1; recovery_e2] true = Ok pair_dag.
Proof. reflexivity. Qed.

(** C5: the claim fails on the code.  Pruning the failure [e1] from the
    DAG of [e1] and its recovery [e2] raises TypeError at the first
    statement of [_remove_event] ([label in <event>]), for any depth of
    recursion allowed; the DAG is left as it was, with [e1] and [e2]
    still in the list and in both indices. *)
Theorem remove_events_raises_and_removes_nothing :
  is_InputEvent (body failure_e1) && negb (in_recovery_types (body failure_e1)) = true
  ∧ (∀ fuel, remove_events (S fuel) pair_dag [failure_e1]
             = Some (Raise TypeError, pair_dag))
  ∧ _events_list pair_dag = [failure_e1; recovery_e2]
  ∧ _label2event pair_dag !! JStr "e1" = Some failure_e1
  ∧ _label2event pair_dag !! JStr "e2" = Some recovery_e2
  ∧ alist_lookup failure_e1 (_event_to_index pair_dag) = Some 0
  ∧ alist_lookup recovery_e2 (_event_to_index pair_dag) = Some 1.
Proof.
  repeat split.
Qed.

Lemma peek_keeps_dag (self : EventDag) : (peek self).2 = self.
Proof. unfold peek. by case_bool_decide. Qed.

Lemma peek_loop_raises (a b : Event) (rest : list Event) (d : alist Event Q) :
  is_ok (peek_loop (a :: b :: rest) d) = false.
Proof. cbn [peek_loop]. by destruct (as_float (time b)). Qed.

Lemma peek_raises_on_two_inputs (self : EventDag) :
  (1 < length (input_events_of self))%nat → is_ok (peek self).1 = false.
Proof.
  intros Hlen. unfold peek, peek_wait_times.
  destruct (input_events_of self) as [|a [|b rest]] eqn:Hin; simpl in Hlen; try lia.
  rewrite bool_decide_eq_false_2 by (unfold len; simpl; lia).
  cbn [fst]. pose proof (peek_loop_raises a b rest []) as Hloop.
  by destruct (peek_loop (a :: b :: rest) []).
Qed.

(** C6: the claim fails on the code.  On the DAG of two input events
    (a failure at second 1, a recovery at second 2) [peek] raises
    NameError instead of giving the first the wait time 2 + 10.  It
    raises whenever the DAG holds two input events or more, and it never
    changes the DAG: no wait time is stored. *)
Theorem peek_raises_and_stores_nothing :
  input_events_of pair_dag = [failure_e1; recovery_e2]
  ∧ peek pair_dag = (Raise NameError, pair_dag)
  ∧ (∀ self, (1 < length (input_events_of self))%nat → is_ok (peek self).1 = false)
  ∧ (∀ self, (peek self).2 = self).
Proof.
  split; [reflexivity|]. split; [reflexivity|].
  split; [apply peek_raises_on_two_inputs|apply peek_keeps_dag].
Qed.

(** ** Splitting *)

Lemma slice_inside {A} (l : list A) (a i : Z) :
  0 ≤ a < len l → 1 ≤ i →
  slice l a (a + i) ≠ []
  ∧ take (Z.to_nat a) l ++ slice l a (a + i) = take (Z.to_nat (a + i)) l.
Proof.
  unfold len. intros Ha Hi. unfold slice, clamp_index, len.
  destruct (Z.ltb_spec a 0) as [|_]; [lia|].
  destruct (Z.ltb_spec (a + i) 0) as [|_]; [lia|].
  rewrite (Z.min_l a) by lia.
  split.
  - intros Hnil. apply (f_equal length) in Hnil.
    rewrite length_take, length_drop in Hnil. simpl in Hnil. lia.
  - rewrite take_take_drop.
    destruct (Z.le_ge_cases (a + i) (Z.of_nat (length l))) as [Hle|Hge].
    + rewrite Z.min_l by lia. f_equal. lia.
    + rewrite Z.min_r by lia.
      rewrite !take_ge; [done|lia|lia].
Qed.

Lemma ceil_div_pos (n k : Z) : 1 ≤ k ≤ n → 1 ≤ ceil_div n k.
Proof.
  intros H. unfold ceil_div.
  assert (- n / k < 0) by (apply Z.div_lt_upper_bound; lia). lia.
Qed.

Lemma ceil_div_one (n k : Z) : 1 ≤ k ≤ n → ceil_div n k = 1 → n = k.
Proof.
  intros H Hone. unfold ceil_div in Hone.
  pose proof (Z.mul_div_le (- n) k ltac:(lia)). nia.
Qed.

Lemma split_loop_partitions (events : list Event) (split_ways : Z) :
  2 ≤ split_ways ≤ len events →
  ∀ fuel splits split_interval start_idx split_idx,
    split_inv events split_ways (ceil_div (len events) split_ways)
              splits split_interval start_idx split_idx →
    (Z.to_nat (len events - start_idx) < fuel)%nat →
    ∃ result,
      split_loop fuel events split_ways splits split_interval start_idx split_idx
      = Some result
      ∧ concat result = events ∧ Forall (λ s, s ≠ []) result.
Proof.
  intros Hk. induction fuel as [|fuel IH];
    intros splits interval start idx [Hstart Hidx Hint Hcat Hne Hearly] Hfuel; [lia|].
  cbn [split_loop]. destruct (Z.ltb_spec start (len events)) as [Hlt|Hge].
  - destruct (slice_inside events start interval ltac:(lia) Hint) as [Hs Htake].
    rewrite <-Hidx in Hs, Htake.
    apply IH; [|lia]. split.
    + lia.
    + reflexivity.
    + destruct (Z.geb_spec (idx + interval) (len events)) as [Hend|_];
        [|simpl; lia].
      destruct (Z.eqb_spec (len (splits ++ [slice events start idx])) (split_ways - 2))
        as [Hlen|_]; [|simpl; lia].
      simpl. unfold len in Hlen. rewrite length_app in Hlen. simpl in Hlen.
      destruct Hearly as [-> ->]; [unfold len; lia|].
      pose proof (ceil_div_pos (len events) split_ways ltac:(lia)) as Hpos.
      destruct (Z.eq_dec (ceil_div (len events) split_ways) 1) as [Hone|]; [|lia].
      apply ceil_div_one in Hone; [|lia].
      rewrite Hidx in Hend. unfold len in *. nia.
    + rewrite concat_app, Hcat. simpl. rewrite app_nil_r. exact Htake.
    + apply Forall_app_2; [exact Hne|]. by constructor.
    + unfold len. rewrite length_app. simpl. intros Hfew.
      destruct Hearly as [-> ->]; [unfold len; lia|].
      destruct (Z.eqb_spec (Z.of_nat (length splits + 1)) (split_ways - 2));
        [lia|].
      rewrite andb_false_r. unfold len in *. split; [reflexivity|lia].
  - exists splits. split; [reflexivity|]. split; [|exact Hne].
    rewrite Hcat. apply take_ge. unfold len in Hge. lia.
Qed.

(** C3 (as amended): for [1 <= k <= len(events)], [split_inputs(k)]
    returns lists, none of them empty, whose concatenation is the event
    list; for a DAG with events and [k] outside that range it raises
    ValueError; for a DAG with no event it returns [[[]]] whatever [k]
    is.  The loop ends within [len(events) + 1] iterations. *)
Theorem split_inputs_partitions (self : EventDag) (split_ways : Z) (fuel : nat)
    (Hfuel : (length (_events_list self) < fuel)%nat) :
  (1 ≤ split_ways ≤ len (_events_list self) →
     ∃ splits, split_inputs fuel self split_ways = Some (Ok splits)
               ∧ concat splits = _events_list self
               ∧ Forall (λ s, s ≠ []) splits)
  ∧ (_events_list self ≠ [] → ¬ (1 ≤ split_ways ≤ len (_events_list self)) →
     split_inputs fuel self split_ways = Some (Raise ValueError))
  ∧ (_events_list self = [] → split_inputs fuel self split_ways = Some (Ok [[]])).
Proof.
  unfold split_inputs.
  destruct (_events_list self) as [|e events'] eqn:Hev.
  { split; [|split]; [unfold len; simpl; lia|done|done]. }
  set (events := e :: events') in *.
  assert (0 < len events) as Hpos by (unfold len; simpl; lia).
  destruct (Z.eqb_spec (len events) 0) as [|_]; [lia|].
  split; [|split]; [| |done].
  - intros Hk. destruct (Z.eqb_spec split_ways 1) as [->|Hne].
    + exists [events]. split; [done|]. simpl. rewrite app_nil_r.
      split; [done|]. by repeat constructor.
    + destruct (Z.ltb_spec split_ways 1) as [|_]; [lia|].
      destruct (Z.gtb_spec split_ways (len events)) as [|_]; [lia|].
      simpl.
      destruct (split_loop_partitions events split_ways ltac:(lia) fuel []
                  (ceil_div (len events) split_ways) 0
                  (0 + ceil_div (len events) split_ways))
        as (result & Hloop & Hcat & Hne').
      * split; [lia|reflexivity| |reflexivity|constructor|].
        -- apply ceil_div_pos. lia.
        -- unfold len. simpl. intros _. split; [reflexivity|lia].
      * unfold len in *. simpl in *. lia.
      * rewrite Hloop. exists result. by split.
  - intros _ Hk. destruct (Z.eqb_spec split_ways 1) as [->|Hne]; [lia|].
    destruct (Z.ltb_spec split_ways 1) as [|?]; [done|].
    destruct (Z.gtb_spec split_ways (len events)) as [|?]; [done|lia].
Qed.

Lemma split_inputs_partitions_witness :
  ∃ splits, split_inputs 6 (view_of five_events) 2 = Some (Ok splits)
            ∧ concat splits = five_events
            ∧ Forall (λ s, s ≠ []) splits.
Proof.
  apply (split_inputs_partitions (view_of five_events) 2 6).
  - simpl. lia.
  - unfold len. simpl. lia.
Defined.

(** C3, as the claim states it, fails twice: on a DAG with no event
    [split_inputs(0)] returns [[[]]] instead of raising, and five events
    split four ways come back as three lists. *)
Lemma split_inputs_is_not_total :
  split_inputs 1 (view_of []) 0 = Some (Ok [[]])
  ∧ split_inputs 6 (view_of five_events) 4
    = Some (Ok [[crash 1; crash 2]; [crash 3; crash 4]; [crash 5]]).
Proof. split; reflexivity. Qed.

(** ** More on the JSON codec *)

Lemma bind_Ok {A B} (m : result A) (k : A → result B) (r : B) :
  m ≫= k = Ok r → ∃ a, m = Ok a ∧ k a = Ok r.
Proof. destruct m as [a|x]; [|discriminate]. intros H. by exists a. Qed.

(** Peeling the binds off a monadic computation that succeeded. *)
Ltac inv_binds H :=
  repeat (first
    [ apply bind_Ok in H as (? & ? & H)
    | match type of H with (let '(_, _) := ?x in _) = _ => destruct x end ]);
  cbn beta iota in H.

Lemma assert_fields_exist_all (h : gmap string json) (fields : list string) :
  assert_fields_exist (Dict h) fields
  = if bool_decide (Forall (λ f, is_Some (h !! f)) fields) then Ok () else Raise ValueError.
Proof.
  induction fields as [|f fields IH]; [done|].
  cbn [assert_fields_exist contains]. rewrite IH.
  repeat case_bool_decide; cbn [negb]; try done; exfalso;
    match goal with
    | H : ¬ Forall _ (_ :: _) |- _ => apply H; by constructor
    | H : Forall _ (_ :: _) |- _ => inversion H; subst; done
    end.
Qed.

Lemma assert_fields_exist_missing (h : gmap string json) (fields : list string) (k : string) :
  k ∈ fields → h !! k = None → assert_fields_exist (Dict h) fields = Raise ValueError.
Proof.
  intros Hk Hnone. rewrite assert_fields_exist_all.
  rewrite bool_decide_eq_false_2; [done|].
  intros Hall. rewrite list.Forall_forall in Hall.
  destruct (Hall k Hk) as [v Hv]. congruence.
Qed.

Lemma extract_label_time_label (h : gmap string json) (l : json) (t : SyncTime) :
  extract_label_time h = Ok (l, t) → h !! "label" = Some l.
Proof.
  unfold extract_label_time, dict_get. intros H. inv_binds H.
  destruct (h !! "label"); by simplify_eq.
Qed.

Lemma new_event_fresh (b : EventBody) (l : json) (t : SyncTime) (gen : label_gen) :
  new_event b l t gen
  = ({| label := if decide (l = JNull) then JStr ("e" +:+ pretty gen) else l;
        time := t; dependent_labels := []; body := b |},
     if decide (l = JNull) then N.succ gen else gen).
Proof. by destruct l. Qed.

(** Unfolding the [from_json] of whichever class is at hand. *)
Ltac unfold_codec :=
  unfold
    SwitchFailure_from_json,
    SwitchRecovery_from_json,
    LinkFailure_from_json,
    LinkRecovery_from_json,
    ControllerFailure_from_json,
    ControllerRecovery_from_json,
    HostMigration_from_json,
    PolicyChange_from_json,
    TrafficInjection_from_json,
    WaitTime_from_json,
    CheckInvariants_from_json,
    ControlChannelBlock_from_json,
    ControlChannelUnblock_from_json,
    DataplaneDrop_from_json,
    DataplanePermit_from_json,
    ControlMessageReceive_from_json,
    ControllerStateChange_from_json.

Tactic Notation "unfold_codec" "in" hyp(H) :=
  unfold
    SwitchFailure_from_json,
    SwitchRecovery_from_json,
    LinkFailure_from_json,
    LinkRecovery_from_json,
    ControllerFailure_from_json,
    ControllerRecovery_from_json,
    HostMigration_from_json,
    PolicyChange_from_json,
    TrafficInjection_from_json,
    WaitTime_from_json,
    CheckInvariants_from_json,
    ControlChannelBlock_from_json,
    ControlChannelUnblock_from_json,
    DataplaneDrop_from_json,
    DataplanePermit_from_json,
    ControlMessageReceive_from_json,
    ControllerStateChange_from_json in H.

(** Case analysis over the entries of [codecs]. *)
Ltac each_codec H :=
  unfold codecs in H;
  repeat (apply elem_of_cons in H as [H|H]; [injection H as -> -> ->|]);
  [..|by apply elem_of_nil in H].

(** X5: [assert_fields_exist] on a dict succeeds exactly when every
    field is a key of the dict, and raises ValueError otherwise,
    whatever the order of the fields. *)
Theorem assert_fields_exist_checks_every_field
    (h : gmap string json) (fields : list string) :
  (assert_fields_exist (Dict h) fields = Ok () ↔ ∀ f, f ∈ fields → is_Some (h !! f))
  ∧ (assert_fields_exist (Dict h) fields = Ok ()
     ∨ assert_fields_exist (Dict h) fields = Raise ValueError).
Proof.
  rewrite assert_fields_exist_all, <-list.Forall_forall.
  case_bool_decide as Hall; split.
  - by split.
  - by left.
  - split; [discriminate|]. intros H. by destruct Hall.
  - by right.
Qed.

(** X3: for every class, [from_json] raises ValueError when 'label' or
    'time' is missing, and, once label and time are read, when a field
    the class asserts is missing. *)
Theorem from_json_missing_key_raises_ValueError
    (InvariantChecker_dict : gset string) (name : string) (keys : list string)
    (f : gmap string json → label_gen → built)
    (h : gmap string json) (gen : label_gen) (k : string)
    (Hcodec : (name, keys, f) ∈ codecs InvariantChecker_dict)
    (Hmissing : h !! k = None) :
  (k ∈ ["label"; "time"] → f h gen = Raise ValueError)
  ∧ (k ∈ keys → is_ok (extract_label_time h) = true → f h gen = Raise ValueError).
Proof.
  split.
  - intros Hk.
    assert (extract_label_time h = Raise ValueError) as Hext.
    { unfold extract_label_time.
      by rewrite (assert_fields_exist_missing h _ k Hk Hmissing). }
    each_codec Hcodec;
      unfold_codec; by rewrite Hext.
  - intros Hk Hok.
    destruct (extract_label_time h) as [[l t]|] eqn:Hext; [|discriminate].
    each_codec Hcodec; try (by apply elem_of_nil in Hk);
      unfold_codec; rewrite Hext;
      cbn [mbind result_bind];
      by rewrite (assert_fields_exist_missing h _ k Hk Hmissing).
Qed.

Lemma from_json_missing_key_witness :
  SwitchFailure_from_json
    (list_to_map [("label", JStr "e1"); ("time", JArr [JInt 0; JInt 0])])
    label_gen_start
  = Raise ValueError.
Proof.
  apply (from_json_missing_key_raises_ValueError ∅ "SwitchFailure" ["dpid"]
           SwitchFailure_from_json _ label_gen_start "dpid").
  - unfold codecs. apply list_elem_of_here.
  - reflexivity.
  - apply list_elem_of_here.
  - reflexivity.
Defined.

(** X4: a key that no [from_json] looks at is ignored: adding it to the
    object, with any value, changes the result of no class's
    [from_json]. *)
Theorem from_json_ignores_unknown_keys
    (InvariantChecker_dict : gset string) (name : string) (keys : list string)
    (f : gmap string json → label_gen → built)
    (h : gmap string json) (gen : label_gen) (k : string) (v : json)
    (Hcodec : (name, keys, f) ∈ codecs InvariantChecker_dict)
    (Hk : k ∉ known_keys) :
  f (<[k := v]> h) gen = f h gen.
Proof.
  unfold known_keys in Hk.
  repeat (apply not_elem_of_cons in Hk as [? Hk]).
  each_codec Hcodec;
    unfold_codec;
    unfold extract_label_time, int_field, dict_get;
    cbn [assert_fields_exist contains];
    by rewrite !lookup_insert_ne by done.
Qed.

Lemma from_json_ignores_unknown_keys_witness :
  WaitTime_from_json
    (<["comment" := JStr "recorded on monday"]>
       (list_to_map [("label", JStr "e1"); ("time", JArr [JInt 0; JInt 0]);
                     ("wait_time", JInt 2)]))
    label_gen_start
  = WaitTime_from_json
      (list_to_map [("label", JStr "e1"); ("time", JArr [JInt 0; JInt 0]);
                    ("wait_time", JInt 2)])
      label_gen_start.
Proof.
  apply (from_json_ignores_unknown_keys ∅ "WaitTime" ["wait_time"]).
  - unfold codecs. do 9 apply list_elem_of_further. apply list_elem_of_here.
  - unfold known_keys. vm_compute. intros H.
    repeat (apply elem_of_cons in H as [H|H]; [discriminate|]).
    by apply elem_of_nil in H.
Defined.

(** X2: whatever the object holds, an event that a [from_json] builds has
    no dependent labels; its label is the object's 'label', or, when
    that is null, the next generated label ['e' + str(n)], and only then
    does the label counter advance. *)
Theorem from_json_builds_fresh_event
    (InvariantChecker_dict : gset string) (name : string) (keys : list string)
    (f : gmap string json → label_gen → built)
    (h : gmap string json) (gen gen' : label_gen) (e : Event)
    (Hcodec : (name, keys, f) ∈ codecs InvariantChecker_dict)
    (Hbuilt : f h gen = Ok (e, gen')) :
  dependent_labels e = []
  ∧ ∃ l, h !! "label" = Some l
         ∧ label e = (if decide (l = JNull) then JStr ("e" +:+ pretty gen) else l)
         ∧ gen' = (if decide (l = JNull) then N.succ gen else gen).
Proof.
  each_codec Hcodec;
    unfold_codec in Hbuilt;
    inv_binds Hbuilt;
    match goal with H : extract_label_time _ = Ok _ |- _ =>
      apply extract_label_time_label in H end;
    rewrite new_event_fresh in Hbuilt; injection Hbuilt as <- <-;
    (split; [reflexivity|]); eexists; (split; [eassumption|]); by split.
Qed.

Lemma from_json_builds_fresh_event_witness :
  ∃ l, (<["dependent_labels" := JArr [JStr "e7"]]>
          (list_to_map [("label", JNull); ("time", JArr [JInt 0; JInt 0]);
                        ("dpid", JInt 1)]) : gmap string json) !! "label" = Some l
       ∧ JStr "e5" = (if decide (l = JNull) then JStr ("e" +:+ pretty 5%N) else l)
       ∧ 6%N = (if decide (l = JNull) then N.succ 5 else 5%N).
Proof.
  apply (from_json_builds_fresh_event ∅ "SwitchFailure" ["dpid"] SwitchFailure_from_json
           (<["dependent_labels" := JArr [JStr "e7"]]>
              (list_to_map [("label", JNull); ("time", JArr [JInt 0; JInt 0]);
                            ("dpid", JInt 1)]))
           5%N 6%N
           {| label := JStr "e5";
              time := {| seconds := JInt 0; microSeconds := JInt 0 |};
              dependent_labels := []; body := SwitchFailure 1 |}).
  - unfold codecs. apply list_elem_of_here.
  - reflexivity.
Defined.

(** X1: for the classes whose attributes are ints, tuples and plain
    values, and an event whose label is set, the [from_json] of the
    class reads back from [to_json] the same class, label, time and
    attributes; the dependent labels are not read back. *)
Theorem round_trip_restores_plain_events
    (InvariantChecker_dict : gset string) (keys : list string)
    (f : gmap string json → label_gen → built) (e : Event) (gen : label_gen)
    (Hplain : plain_class (body e) = true)
    (Hlabel : label e ≠ JNull)
    (Hcodec : (class_name (body e), keys, f) ∈ codecs InvariantChecker_dict) :
  (to_json e ≫= λ h, f h gen)
  = Ok ({| label := label e; time := time e; dependent_labels := [];
           body := body e |}, gen).
Proof.
  destruct e as [l [s us] deps b]. cbn [label time body] in *.
  assert (∀ b', new_event b' l {| seconds := s; microSeconds := us |} gen
                = ({| label := l; time := {| seconds := s; microSeconds := us |};
                      dependent_labels := []; body := b' |}, gen)) as Hnew
    by (intros b'; by apply new_event_keeps_label).
  destruct b as [| | | |[c n]| | | | | | | | | | | | |]; try discriminate;
    cbn [class_name] in Hcodec; unfold codecs in Hcodec;
    repeat (apply elem_of_cons in Hcodec as [Hcodec|Hcodec]; [simplify_eq|]);
    try (by apply elem_of_nil in Hcodec);
    rewrite <-Hnew; reflexivity.
Qed.

Lemma round_trip_restores_plain_events_witness :
  (to_json failure_e1 ≫= λ h, SwitchFailure_from_json h label_gen_start)
  = Ok ({| label := JStr "e1";
           time := {| seconds := JInt 1; microSeconds := JInt 0 |};
           dependent_labels := [];
           body := SwitchFailure 1 |}, label_gen_start).
Proof.
  apply (round_trip_restores_plain_events ∅ ["dpid"] SwitchFailure_from_json failure_e1).
  - reflexivity.
  - discriminate.
  - unfold codecs. apply list_elem_of_here.
Defined.

Lemma generated_label_inj (a b : label_gen) :
  JStr ("e" +:+ pretty a) = JStr ("e" +:+ pretty b) → a = b.
Proof. intros H. injection H as H. by apply (inj pretty). Qed.

Lemma new_events_labels (bodies : list EventBody) (t : SyncTime) :
  ∀ gen l, l ∈ label <$> new_events bodies t gen →
           ∃ k, (gen ≤ k)%N ∧ l = JStr ("e" +:+ pretty k).
Proof.
  induction bodies as [|b bodies IH]; intros gen l Hl; simpl in Hl.
  - by apply elem_of_nil in Hl.
  - apply elem_of_cons in Hl as [->|Hl].
    + exists gen. split; [lia|reflexivity].
    + destruct (IH _ _ Hl) as (k & Hk & ->). exists k. split; [lia|reflexivity].
Qed.

(** X6: events constructed one after the other without a label get
    pairwise distinct labels. *)
Theorem constructed_labels_are_distinct
    (bodies : list EventBody) (t : SyncTime) (gen : label_gen) :
  NoDup (label <$> new_events bodies t gen).
Proof.
  revert gen. induction bodies as [|b bodies IH]; intros gen; simpl.
  - constructor.
  - constructor; [|apply IH].
    intros Hin. apply new_events_labels in Hin as (k & Hk & Heq).
    apply generated_label_inj in Heq. lia.
Qed.

(** ** More on the event DAG *)

Lemma alist_lookup_insert_eq {K V} `{EqDecision K} (k : K) (v : V) (d : alist K V) :
  alist_lookup k (alist_insert k v d) = Some v.
Proof.
  unfold alist_lookup, alist_insert, alist_delete, alist in *.
  induction d as [|[k' v'] d IH]; simpl.
  - by rewrite bool_decide_eq_true_2.
  - rewrite filter_cons. simpl. case_decide as Hne; [|exact IH].
    simpl. by rewrite bool_decide_eq_false_2.
Qed.

Lemma alist_lookup_insert_ne {K V} `{EqDecision K} (k k' : K) (v : V) (d : alist K V) :
  k ≠ k' → alist_lookup k (alist_insert k' v d) = alist_lookup k d.
Proof.
  intros Hne. unfold alist_lookup, alist_insert, alist_delete, alist in *.
  induction d as [|[k0 v0] d IH]; simpl.
  - by rewrite bool_decide_eq_false_2.
  - rewrite filter_cons. simpl. case_decide as Hk0.
    + simpl. case_bool_decide; [done|exact IH].
    + subst k0.
      by rewrite (bool_decide_eq_false_2 (k' = k)).
Qed.

Lemma index_events_snoc (events : list Event) (e : Event) :
  index_events (events ++ [e])
  = alist_insert e (Z.of_nat (length events)) (index_events events).
Proof.
  unfold index_events. rewrite imap_app, foldl_app. simpl.
  by rewrite Nat.add_0_r.
Qed.

Lemma index_events_lookup (events : list Event) :
  NoDup events →
  ∀ i e, events !! i = Some e →
         alist_lookup e (index_events events) = Some (Z.of_nat i).
Proof.
  induction events as [|x events IH] using rev_ind; intros Hnd i e Hi; [done|].
  rewrite index_events_snoc.
  apply list.NoDup_app in Hnd as (Hnd & Hx & _).
  destruct (decide (i < length events)%nat) as [Hlt|Hge].
  - rewrite lookup_app_l in Hi by done.
    rewrite alist_lookup_insert_ne; [by apply IH|].
    intros ->. apply (Hx _ (list_elem_of_lookup_2 _ _ _ Hi)). apply list_elem_of_here.
  - rewrite lookup_app_r in Hi by lia.
    destruct (i - length events)%nat as [|j] eqn:Hj; [|done].
    simpl in Hi. injection Hi as ->.
    rewrite alist_lookup_insert_eq. do 2 f_equal. lia.
Qed.

Lemma label_events_lookup (events : list Event) :
  ∀ d d', label_events events d = Ok d' →
          ∀ k, d' !! k = match list.last (labelled k events) with
                         | Some e => Some e
                         | None => d !! k
                         end.
Proof.
  induction events as [|x events IH]; intros d d' Hd k; simpl in Hd.
  - injection Hd as <-. reflexivity.
  - destruct (hashable (label x)); [|discriminate].
    rewrite (IH _ _ Hd k). unfold labelled. rewrite filter_cons.
    case_decide as Hk.
    + rewrite last_cons. subst k.
      destruct (list.last _); [done|]. apply lookup_insert_eq.
    + destruct (list.last _); [done|]. by apply lookup_insert_ne.
Qed.

Lemma labelled_none (k : json) (events : list Event) :
  k ∉ (dict_key ∘ label <$> events) → labelled k events = [].
Proof.
  unfold labelled. induction events as [|x events IH]; intros Hk; [done|].
  rewrite fmap_cons in Hk. apply not_elem_of_cons in Hk as [Hne Hk].
  rewrite filter_cons, decide_False; [by apply IH|].
  intros Heq. by apply Hne.
Qed.

Lemma labelled_distinct (events : list Event) (e : Event) :
  NoDup (dict_key ∘ label <$> events) → e ∈ events →
  labelled (dict_key (label e)) events = [e].
Proof.
  unfold labelled.
  induction events as [|x events IH]; intros Hnd He; [by apply elem_of_nil in He|].
  rewrite fmap_cons in Hnd. apply list.NoDup_cons in Hnd as [Hx Hnd].
  rewrite filter_cons. apply elem_of_cons in He as [->|He].
  - rewrite decide_True by done. f_equal. by apply labelled_none.
  - rewrite decide_False; [by apply IH|].
    intros Heq. apply Hx.
    change ((dict_key ∘ label) x ∈ (dict_key ∘ label <$> events)).
    change ((dict_key ∘ label) x = (dict_key ∘ label) e) in Heq. rewrite Heq.
    by apply list_elem_of_fmap_2.
Qed.

Lemma label_events_hashable (events : list Event) :
  ∀ d, label_events events d
       = (if bool_decide (Forall (λ e, hashable (label e) = true) events)
          then Ok (foldl (λ d e, <[dict_key (label e) := e]> d) d events)
          else Raise TypeError).
Proof.
  induction events as [|x events IH]; intros d; simpl; [done|].
  destruct (hashable (label x)) eqn:Hx; simpl.
  - rewrite IH. repeat case_bool_decide; try done; exfalso;
      match goal with
      | H : ¬ Forall _ (_ :: _) |- _ => apply H; by constructor
      | H : Forall _ (_ :: _) |- _ => inversion H; subst; done
      end.
  - rewrite bool_decide_eq_false_2; [done|].
    intros H. inversion H; subst. congruence.
Qed.

(** X7: a view has the events as its list.  [self._label2event[l]]
    gives the last event of the list whose label equals [l] under
    Python's [==] (so an event labelled True takes the entry of an
    earlier one labelled 1), and raises KeyError when there is none.
    When the labels are pairwise unequal under [==], every event is
    found under its label, and the position of every event is found
    under the event. *)
Theorem EventDag_init_indexes_events
    (events : list Event) (dag : EventDag)
    (Hinit : EventDag_init events true = Ok dag) :
  _events_list dag = events
  ∧ (∀ l, hashable l = true →
       label2event_get dag l
       = match list.last (labelled (dict_key l) events) with
         | Some e => Ok e
         | None => Raise KeyError
         end)
  ∧ (NoDup (dict_key ∘ label <$> events) →
     ∀ i e, events !! i = Some e →
            label2event_get dag (label e) = Ok e
            ∧ alist_lookup e (_event_to_index dag) = Some (Z.of_nat i)).
Proof.
  unfold EventDag_init in Hinit.
  destruct (label_events events ∅) as [d|] eqn:Hd; [|discriminate].
  simpl in Hinit. injection Hinit as <-.
  assert (∀ l, hashable l = true →
            label2event_get
              {| _events_list := events; _event_to_index := index_events events;
                 _label2event := d |} l
            = match list.last (labelled (dict_key l) events) with
              | Some e => Ok e
              | None => Raise KeyError
              end) as Hget.
  { intros l Hl. unfold label2event_get, dict_get. rewrite Hl.
    cbn [_label2event]. rewrite (label_events_lookup _ _ _ Hd).
    by destruct (list.last _). }
  split; [reflexivity|]. split; [exact Hget|].
  intros Hdistinct i e Hi.
  assert (e ∈ events) as He by (by eapply list_elem_of_lookup_2).
  split.
  - rewrite Hget.
    + by rewrite labelled_distinct.
    + rewrite label_events_hashable in Hd. case_bool_decide as Hall; [|discriminate].
      by apply (proj1 (list.Forall_forall _ _) Hall).
  - cbn [_event_to_index]. apply index_events_lookup; [|done].
    by eapply (NoDup_fmap_1 (dict_key ∘ label)).
Qed.

Lemma EventDag_init_indexes_events_witness :
  (label2event_get (view_of [labelled_1; labelled_True]) (JInt 1) = Ok labelled_True
   ∧ label2event_get (view_of [labelled_1; labelled_True]) (JBool true) = Ok labelled_True
   ∧ label2event_get (view_of [labelled_1; labelled_True]) (JInt 2) = Raise KeyError)
  ∧ ∀ i e, [failure_e1; recovery_e2] !! i = Some e →
           label2event_get pair_dag (label e) = Ok e
           ∧ alist_lookup e (_event_to_index pair_dag) = Some (Z.of_nat i).
Proof.
  split.
  - destruct (EventDag_init_indexes_events [labelled_1; labelled_True]
                (view_of [labelled_1; labelled_True]) eq_refl) as (_ & Hget & _).
    split; [exact (Hget (JInt 1) eq_refl)|].
    split; [exact (Hget (JBool true) eq_refl)|exact (Hget (JInt 2) eq_refl)].
  - destruct (EventDag_init_indexes_events [failure_e1; recovery_e2] pair_dag eq_refl)
      as (_ & _ & Hall).
    apply Hall.
    simpl. repeat constructor; rewrite ?elem_of_cons, elem_of_nil; intros H;
      decompose [or] H; done.
Defined.

(** X20: a view is built exactly when every label can be hashed; a
    label that is a list or a dict makes the constructor raise
    TypeError. *)
Theorem EventDag_init_needs_hashable_labels (events : list Event) :
  (Forall (λ e, hashable (label e) = true) events →
     ∃ dag, EventDag_init events true = Ok dag ∧ _events_list dag = events)
  ∧ (¬ Forall (λ e, hashable (label e) = true) events →
     EventDag_init events true = Raise TypeError).
Proof.
  unfold EventDag_init. rewrite label_events_hashable.
  case_bool_decide as Hall; (split; [|done]).
  - intros _. by eexists.
  - intros Hyes. done.
Qed.

Lemma ceil_div_ge (n k : Z) : 0 < k → n ≤ k * ceil_div n k.
Proof.
  intros Hk. unfold ceil_div.
  pose proof (Z.mul_div_le (- n) k Hk). rewrite Z.mul_opp_r. lia.
Qed.

Lemma split_loop_count (events : list Event) (split_ways : Z) :
  2 ≤ split_ways ≤ len events →
  ∀ fuel splits split_interval start_idx split_idx result,
    split_count_inv events split_ways (ceil_div (len events) split_ways)
                    splits split_interval start_idx →
    split_idx = start_idx + split_interval →
    split_loop fuel events split_ways splits split_interval start_idx split_idx
    = Some result →
    len splits ≤ len result ≤ split_ways
    ∧ (start_idx < len events → len splits < len result).
Proof.
  intros Hk. pose proof (ceil_div_ge (len events) split_ways ltac:(lia)) as Hge.
  pose proof (ceil_div_pos (len events) split_ways ltac:(lia)) as Hpos.
  induction fuel as [|fuel IH];
    intros splits interval start idx result [Hm Hearly Hlate] Hidx Hloop; [discriminate|].
  cbn [split_loop] in Hloop.
  destruct (Z.ltb_spec start (len events)) as [Hlt|Hnlt].
  - assert (len splits < split_ways) as Hroom.
    { destruct (Z.lt_ge_cases (len splits) (split_ways - 2)) as [|Hl]; [lia|].
      destruct (Hlate Hl) as [Hi Hrest]. nia. }
    assert (len (splits ++ [slice events start idx]) = len splits + 1) as Hlen.
    { unfold len. rewrite length_app. simpl. lia. }
    apply IH in Hloop; [rewrite Hlen in Hloop; lia| |reflexivity].
    rewrite Hlen. split; [lia| |].
    + intros Hfew. destruct Hearly as [-> ->]; [lia|].
      destruct (Z.eqb_spec (len splits + 1) (split_ways - 2)); [lia|].
      rewrite andb_false_r. split; [reflexivity|lia].
    + intros Hmany.
      destruct (Z.lt_ge_cases (len splits) (split_ways - 2)) as [Hl|Hl].
      * destruct (Hearly Hl) as [-> ->].
        destruct (Z.eqb_spec (len splits + 1) (split_ways - 2)) as [Heq|]; [|lia].
        rewrite andb_true_r.
        destruct (Z.geb_spec (idx + ceil_div (len events) split_ways) (len events))
          as [Hend|Hnend].
        -- destruct (Z.eq_dec (ceil_div (len events) split_ways) 1) as [Hone|].
           ++ apply ceil_div_one in Hone; [|lia]. nia.
           ++ nia.
        -- nia.
      * destruct (Hlate Hl) as [Hi Hrest].
        destruct (Z.eqb_spec (len splits + 1) (split_ways - 2)); [lia|].
        rewrite andb_false_r. nia.
  - injection Hloop as <-. lia.
Qed.

(** X8: whenever it returns, [split_inputs(k)] on a DAG with events
    returns at least one list and never more than [k] lists. *)
Theorem split_inputs_returns_at_most_k_lists
    (self : EventDag) (split_ways : Z) (fuel : nat) (splits : list (list Event))
    (Hevents : _events_list self ≠ [])
    (Hsplit : split_inputs fuel self split_ways = Some (Ok splits)) :
  1 ≤ len splits ≤ split_ways.
Proof.
  unfold split_inputs in Hsplit.
  assert (0 < len (_events_list self)) as Hpos.
  { destruct (_events_list self); [done|]. unfold len. simpl. lia. }
  destruct (Z.eqb_spec (len (_events_list self)) 0) as [|_]; [lia|].
  destruct (Z.eqb_spec split_ways 1) as [->|Hne].
  { injection Hsplit as <-. unfold len. simpl. lia. }
  destruct (Z.ltb_spec split_ways 1) as [|?]; [discriminate|].
  destruct (Z.gtb_spec split_ways (len (_events_list self))) as [|?]; [discriminate|].
  simpl in Hsplit.
  destruct (split_loop _ _ _ _ _ _ _) as [result|] eqn:Hloop; [|discriminate].
  injection Hsplit as <-.
  apply split_loop_count in Hloop; [|lia| |reflexivity].
  - unfold len in *. simpl in *. lia.
  - pose proof (ceil_div_ge (len (_events_list self)) split_ways ltac:(lia)).
    pose proof (ceil_div_pos (len (_events_list self)) split_ways ltac:(lia)).
    split; unfold len in *; simpl in *; [lia|intros _; split; [reflexivity|lia]|].
    intros _. split; [lia|]. nia.
Qed.

Lemma split_inputs_returns_at_most_k_lists_witness :
  1 ≤ len [[crash 1; crash 2]; [crash 3; crash 4]; [crash 5]] ≤ 4.
Proof.
  apply (split_inputs_returns_at_most_k_lists (view_of five_events) 4 6).
  - discriminate.
  - reflexivity.
Defined.

Lemma mark_only_failures (events : list Event) :
  ∀ d, _mark_invalid_input_sequences events d = Ok () →
       Forall (λ e, in_failure_types (body e) = true) events.
Proof.
  induction events as [|e events IH]; intros d H; [constructor|].
  cbn [_mark_invalid_input_sequences] in H.
  destruct (in_failure_types (body e)) eqn:He; [|discriminate].
  destruct (fingerprint_of (body e)) as [fp|]; [|discriminate].
  cbn [mbind result_bind] in H.
  destruct (fingerprint_hashable fp); [|discriminate].
  constructor; [exact He|by eapply IH].
Qed.

(** X18: a DAG that is not a view is only ever built from failure
    events: with any other event in the list, marking the invalid input
    sequences raises, and the constructor with it.  When it is built,
    it is the DAG the view constructor builds. *)
Theorem EventDag_init_marks_only_failures
    (events : list Event) (dag : EventDag)
    (Hinit : EventDag_init events false = Ok dag) :
  Forall (λ e, in_failure_types (body e) = true) events
  ∧ EventDag_init events true = Ok dag.
Proof.
  unfold EventDag_init in *.
  destruct (label_events events ∅) as [d|]; [|discriminate].
  cbn [mbind result_bind negb] in *.
  destruct (_mark_invalid_input_sequences events []) as [[]|] eqn:Hmark; [|discriminate].
  split; [by eapply mark_only_failures|exact Hinit].
Qed.

Lemma EventDag_init_marks_only_failures_witness :
  Forall (λ e, in_failure_types (body e) = true) [failure_e1]
  ∧ EventDag_init [failure_e1] true = Ok (view_of [failure_e1]).
Proof.
  apply (EventDag_init_marks_only_failures [failure_e1] (view_of [failure_e1])).
  reflexivity.
Defined.

Lemma remove_each_ok (fuel : nat) (self self' : EventDag) (events : list Event) :
  remove_each fuel self events = Some (Ok (), self') → events = [] ∧ self' = self.
Proof.
  destruct events as [|e events]; simpl.
  - intros H. by injection H as <-.
  - destruct fuel as [|fuel]; [discriminate|].
    destruct (_remove_event_raises fuel self e) as [x ->]. discriminate.
Qed.

(** X19: [ignore_portion] never returns a DAG with an event removed.
    When it returns, the view holds exactly the events of the DAG, the
    ignored portion held no input event that could be pruned, and the
    DAG holds at most one input event. *)
Theorem ignore_portion_removes_nothing
    (fuel : nat) (self dag : EventDag) (ignored_portion : list Event)
    (Hview : ignore_portion fuel self ignored_portion = Some (Ok dag)) :
  _events_list dag = _events_list self
  ∧ Forall (λ e, is_InputEvent (body e) && negb (in_recovery_types (body e)) = false)
           ignored_portion
  ∧ (length (input_events_of dag) ≤ 1)%nat.
Proof.
  unfold ignore_portion in Hview.
  destruct (EventDag_init (_events_list self) true) as [d0|] eqn:Hinit; [|discriminate].
  assert (_events_list d0 = _events_list self) as Hlist.
  { unfold EventDag_init in Hinit.
    destruct (label_events _ ∅); [|discriminate]. by injection Hinit as <-. }
  unfold remove_events in Hview.
  destruct (remove_each fuel d0 _) as [[[[]|x] d1]|] eqn:Heach; try discriminate.
  apply remove_each_ok in Heach as [Hnone ->].
  pose proof (peek_keeps_dag d0) as Hkeep.
  destruct (peek d0) as [[[]|x] d2] eqn:Hpeek; [|discriminate].
  simpl in Hkeep. subst d2. injection Hview as <-.
  split; [exact Hlist|]. split.
  - apply list.Forall_forall. intros e He.
    destruct (is_InputEvent (body e) && negb (in_recovery_types (body e))) eqn:Hp; [|done].
    assert (e ∈ filter (λ e, is_InputEvent (body e) && negb (in_recovery_types (body e)) = true)
                       ignored_portion) as Hin by (apply list_elem_of_filter; by split).
    rewrite Hnone in Hin. by apply elem_of_nil in Hin.
  - destruct (decide (1 < length (input_events_of d0))%nat) as [Hmany|]; [|lia].
    apply peek_raises_on_two_inputs in Hmany. by rewrite Hpeek in Hmany.
Qed.

Lemma ignore_portion_removes_nothing_witness :
  _events_list (view_of [failure_e1]) = _events_list (view_of [failure_e1])
  ∧ Forall (λ e, is_InputEvent (body e) && negb (in_recovery_types (body e)) = false)
           [recovery_e2]
  ∧ (length (input_events_of (view_of [failure_e1])) ≤ 1)%nat.
Proof.
  apply (ignore_portion_removes_nothing 1 (view_of [failure_e1])).
  reflexivity.
Defined.

(** ** More on [proceed] *)

Lemma with_net_same (sim : Simulation) : with_net (net sim) sim = sim.
Proof. by destruct sim. Qed.

Lemma set_conn_back (conn : conn_ref) (c c' : DeferredOFConnection) (w : Net) :
  conns w !! conn = Some c → set_conn conn c (set_conn conn c' w) = w.
Proof.
  intros Hc. destruct w as [cs p d]. unfold set_conn. simpl in *.
  by rewrite insert_insert_eq, insert_id.
Qed.

(** X9: on a connection that is not blocked, ControlChannelBlock
    followed by ControlChannelUnblock both return True and leave the
    simulation exactly as it was; after the block, a second block
    raises RuntimeError. *)
Theorem block_then_unblock_restores_simulation
    (sim : Simulation) (blk unb : Event) (dpid : json) (cid : list json)
    (switch : FuzzSoftwareSwitch) (conn : conn_ref) (c : DeferredOFConnection)
    (Hblk : body blk = ControlChannelBlock dpid cid)
    (Hunb : body unb = ControlChannelUnblock dpid cid)
    (Hsw : get_switch sim dpid = Ok switch)
    (Hconn : get_connection switch cid = Ok conn)
    (Hc : conns (net sim) !! conn = Some c)
    (Hfree : currently_blocked c = false) :
  ∃ sim1, proceed blk sim = Ok (True_, sim1)
          ∧ proceed blk sim1 = Raise RuntimeError
          ∧ proceed unb sim1 = Ok (True_, sim).
Proof.
  exists (with_net (set_conn conn (set_blocked true c) (net sim)) sim).
  assert (∀ w, get_switch (with_net w sim) dpid = Ok switch) as Hsw'
    by (intros w; exact Hsw).
  assert (set_blocked false (set_blocked true c) = c) as Hback
    by (destruct c; simpl in *; by subst).
  unfold proceed, block, unblock, deref. rewrite Hblk, Hunb.
  split; [|split].
  - rewrite Hsw. cbn [mbind result_bind]. rewrite Hconn. cbn [mbind result_bind].
    rewrite Hc. cbn [mbind result_bind]. by rewrite Hfree.
  - rewrite Hsw'. cbn [mbind result_bind]. rewrite Hconn. cbn [mbind result_bind net with_net].
    by rewrite set_conn_lookup.
  - rewrite Hsw'. cbn [mbind result_bind]. rewrite Hconn. cbn [mbind result_bind net with_net].
    rewrite set_conn_lookup. cbn [mbind result_bind currently_blocked set_blocked negb].
    rewrite Hback, set_conn_back by done. do 2 f_equal.
    transitivity (with_net (net sim) sim); [reflexivity|apply with_net_same].
Qed.

Lemma block_then_unblock_restores_simulation_witness :
  ∃ sim1,
    proceed (event_of "e1" (ControlChannelBlock (JInt 1) sample_cid)) (channel_sim false)
    = Ok (True_, sim1)
    ∧ proceed (event_of "e1" (ControlChannelBlock (JInt 1) sample_cid)) sim1
      = Raise RuntimeError
    ∧ proceed (event_of "e2" (ControlChannelUnblock (JInt 1) sample_cid)) sim1
      = Ok (True_, channel_sim false).
Proof.
  apply (block_then_unblock_restores_simulation (channel_sim false)
           (event_of "e1" (ControlChannelBlock (JInt 1) sample_cid))
           (event_of "e2" (ControlChannelUnblock (JInt 1) sample_cid))
           (JInt 1) sample_cid channel_switch 1%positive (channel_conn false));
    reflexivity.
Defined.

(** X13: when [proceed] returns a falsy value, that value is False or
    None and the simulation is as it was before the call: an event that
    is not done yet has touched nothing. *)
Theorem proceed_not_yet_changes_nothing
    (e : Event) (sim s : Simulation) (v : json)
    (Hp : proceed e sim = Ok (v, s)) (Hv : truthy v = false) :
  s = sim ∧ (v = False_ ∨ v = None_).
Proof.
  unfold proceed in Hp.
  destruct (body e); split_binds Hp; try discriminate;
    injection Hp as <- <-; try discriminate; split; auto.
Qed.

Lemma proceed_not_yet_changes_nothing_witness :
  quiet_sim = quiet_sim ∧ (False_ = False_ ∨ False_ = None_).
Proof.
  apply (proceed_not_yet_changes_nothing drop_event quiet_sim quiet_sim False_);
    reflexivity.
Defined.



(** X12: LinkFailure.proceed and LinkRecovery.proceed build their Link
    from port numbers.  With both switches known and the start port a
    port of the start switch, they raise AssertionError when the end
    port number is not also a port number of the start switch, raise
    KeyError when it is but the end switch has no such port, and
    otherwise return True after severing, or repairing, the link of the
    two port objects. *)
Theorem link_events_look_up_the_end_port_on_both_switches
    (sim : Simulation) (fail rec : Event) (sd sp ed ep : Z)
    (s1 s2 : FuzzSoftwareSwitch) (p1 : ofp_phy_port)
    (Hfail : body fail = LinkFailure sd sp ed ep)
    (Hrec : body rec = LinkRecovery sd sp ed ep)
    (Hs1 : get_switch sim (JInt sd) = Ok s1)
    (Hs2 : get_switch sim (JInt ed) = Ok s2)
    (Hp1 : ports s1 !! sp = Some p1) :
  (ports s1 !! ep = None →
     proceed fail sim = Raise AssertionError ∧ proceed rec sim = Raise AssertionError)
  ∧ (is_Some (ports s1 !! ep) → ports s2 !! ep = None →
     proceed fail sim = Raise KeyError ∧ proceed rec sim = Raise KeyError)
  ∧ (∀ p2, is_Some (ports s1 !! ep) → ports s2 !! ep = Some p2 →
     let link := {| start_software_switch := s1; start_port := p1;
                    end_software_switch := s2; end_port := p2 |} in
     proceed fail sim = Ok (True_, call (SeverLink link) sim)
     ∧ proceed rec sim = Ok (True_, call (RepairLink link) sim)).
Proof.
  unfold proceed, get_link. rewrite Hfail, Hrec, Hs1. cbn [mbind result_bind].
  rewrite Hs2. cbn [mbind result_bind]. unfold Link_init, dict_get. rewrite Hp1.
  rewrite (bool_decide_eq_true_2 (is_Some (Some p1))) by eauto.
  cbn [py_assert mbind result_bind fmap result_fmap].
  split; [|split].
  - intros ->. rewrite bool_decide_eq_false_2 by (by intros [? ?]). by split.
  - intros Hin ->. rewrite (bool_decide_eq_true_2 _ Hin). by split.
  - intros p2 Hin ->. rewrite (bool_decide_eq_true_2 _ Hin). by split.
Qed.

Lemma link_events_witness :
  proceed (event_of "e1" (LinkFailure 1 1 2 2)) two_switch_sim = Raise AssertionError
  ∧ proceed (event_of "e2" (LinkRecovery 1 1 2 2)) two_switch_sim = Raise AssertionError.
Proof.
  apply (link_events_look_up_the_end_port_on_both_switches two_switch_sim
           (event_of "e1" (LinkFailure 1 1 2 2)) (event_of "e2" (LinkRecovery 1 1 2 2))
           1 1 2 2 (one_port_switch 1) (one_port_switch 2) (port_of 1));
    reflexivity.
Defined.

(** ** Host interfaces and link hashes *)

Lemma all_ips_in_spec (ips other : list Z) :
  all_ips_in ips other = true ↔ ∀ ip, ip ∈ ips → ip ∈ other.
Proof.
  induction ips as [|ip ips IH]; simpl.
  - split; [|done]. intros _ ip H. by apply elem_of_nil in H.
  - case_bool_decide as Hip; simpl.
    + rewrite IH. split.
      * intros H x Hx. apply elem_of_cons in Hx as [->|Hx]; auto.
      * intros H x Hx. apply H. by apply list_elem_of_further.
    + split; [discriminate|]. intros H. destruct Hip. apply H, list_elem_of_here.
Qed.

Lemma HostInterface_eq_spec (a b : HostInterface) :
  HostInterface_eq a b = true
  ↔ if_hw_addr a = if_hw_addr b
    ∧ (∀ ip, ip ∈ if_ips a → ip ∈ if_ips b)
    ∧ length (if_ips b) = length (if_ips a)
    ∧ if_name a = if_name b.
Proof.
  unfold HostInterface_eq. rewrite <-all_ips_in_spec.
  destruct (all_ips_in (if_ips a) (if_ips b));
    repeat case_bool_decide; simpl; split; try done; try tauto; intros (?&?&?&?); done.
Qed.

Lemma hash_fold_permutation (int_hash : Z → Z) (l1 l2 : list Z) :
  l1 ≡ₚ l2 →
  ∀ h, foldl (λ hash_code ip, hash_code + int_hash ip) h l1
       = foldl (λ hash_code ip, hash_code + int_hash ip) h l2.
Proof.
  induction 1 as [|x l1 l2 _ IH|x y l|l1 l2 l3 _ IH1 _ IH2]; intros h; simpl.
  - done.
  - apply IH.
  - f_equal. lia.
  - by rewrite IH1.
Qed.

(** X10: HostInterface.__eq__ is reflexive, for every interface.  When
    an interface whose IP list has no duplicate equals another, the
    other's IPs are the same up to order, the other equals it too, and
    the two have the same hash.  With a duplicate in the list the
    equality need not be symmetric: an interface with the IPs 10, 10
    equals one with the IPs 10, 20, which does not equal it. *)
Theorem HostInterface_eq_on_distinct_ips
    (int_hash : Z → Z) (str_hash : string → Z) (hash_result : Z → Z) :
  (∀ a, HostInterface_eq a a = true)
  ∧ (∀ a b, HostInterface_eq a b = true → NoDup (if_ips a) →
       if_ips a ≡ₚ if_ips b
       ∧ HostInterface_eq b a = true
       ∧ HostInterface_hash int_hash str_hash hash_result a
         = HostInterface_hash int_hash str_hash hash_result b)
  ∧ (∀ hw name,
       HostInterface_eq (HostInterface_init hw (IpList [10; 10]) name)
                        (HostInterface_init hw (IpList [10; 20]) name) = true
       ∧ HostInterface_eq (HostInterface_init hw (IpList [10; 20]) name)
                          (HostInterface_init hw (IpList [10; 10]) name) = false).
Proof.
  split; [|split].
  - intros a. by apply HostInterface_eq_spec.
  - intros a b Heq Hdistinct.
    apply HostInterface_eq_spec in Heq as (Hhw & Hsub & Hlen & Hname).
    assert (if_ips a ≡ₚ if_ips b) as Hperm.
    { apply submseteq_length_Permutation; [by apply NoDup_submseteq|lia]. }
    split; [exact Hperm|]. split.
    + apply HostInterface_eq_spec. repeat split; try done.
      intros ip Hip. by rewrite Hperm.
    + unfold HostInterface_hash. rewrite Hhw, Hname.
      by rewrite (hash_fold_permutation int_hash _ _ Hperm).
  - intros hw name. unfold HostInterface_eq, HostInterface_init.
    cbn [if_hw_addr if_ips if_name length].
    rewrite !(bool_decide_eq_true_2 (hw = hw)), !(bool_decide_eq_true_2 (name = name))
      by done.
    split; reflexivity.
Qed.

Lemma HostInterface_eq_witness :
  [10; 20] ≡ₚ [20; 10]
  ∧ HostInterface_eq (HostInterface_init 1 (IpList [20; 10]) "eth0")
                     (HostInterface_init 1 (IpList [10; 20]) "eth0") = true
  ∧ HostInterface_hash id (λ _, 0) id (HostInterface_init 1 (IpList [10; 20]) "eth0")
    = HostInterface_hash id (λ _, 0) id (HostInterface_init 1 (IpList [20; 10]) "eth0").
Proof.
  destruct (HostInterface_eq_on_distinct_ips id (λ _, 0) id) as (_ & Hsym & _).
  apply (Hsym (HostInterface_init 1 (IpList [10; 20]) "eth0")
              (HostInterface_init 1 (IpList [20; 10]) "eth0")).
  - reflexivity.
  - simpl. repeat constructor; rewrite ?elem_of_cons, elem_of_nil; intros H;
      decompose [or] H; done.
Defined.

(** X11: a Link and its reversed Link always have the same hash, while
    they are equal only when both ends are the same switch and port. *)
Theorem reversed_link_has_the_same_hash
    (switch_hash : FuzzSoftwareSwitch → Z) (port_hash : ofp_phy_port → Z)
    (hash_result : Z → Z) (l : Link) :
  ∃ r, reversed_link l = Ok r
       ∧ Link_hash switch_hash port_hash hash_result r
         = Link_hash switch_hash port_hash hash_result l
       ∧ (Link_eq r l = true
          ↔ start_software_switch l = end_software_switch l
            ∧ start_port l = end_port l).
Proof.
  destruct l as [s1 p1 s2 p2]. eexists. split; [reflexivity|]. split.
  - unfold Link_hash. simpl. f_equal. lia.
  - unfold Link_eq. simpl. repeat case_bool_decide; simpl; split;
      try done; try tauto; intros [? ?]; congruence.
Qed.

(** ** Controller configurations and the simulator's command line *)

Lemma append_nil_r (s : string) : s +:+ EmptyString = s.
Proof.
  induction s as [|c s IH]; [done|].
  change (String c (s +:+ EmptyString) = String c s). by rewrite IH.
Qed.

Lemma length_append (s1 s2 : string) :
  String.length (s1 +:+ s2) = (String.length s1 + String.length s2)%nat.
Proof.
  induction s1 as [|c s1 IH]; [done|].
  change (S (String.length (s1 +:+ s2)) = S (String.length s1 + String.length s2)).
  by rewrite IH.
Qed.

Lemma prefix_append (old b : string) : String.prefix old (old +:+ b) = true.
Proof.
  induction old as [|c old IH]; [by destruct b|].
  change (String.prefix (String c old) (String c (old +:+ b)) = true).
  cbn [String.prefix]. destruct (ascii_dec c c); [exact IH|done].
Qed.

Lemma replace_go_skip (old new x b : string) :
  replace_go old new (String.length x) (x +:+ b) = replace_go old new 0 b.
Proof.
  induction x as [|c x IH]; [done|].
  change (replace_go old new (S (String.length x)) (String c (x +:+ b))
          = replace_go old new 0 b).
  exact IH.
Qed.

Lemma replace_go_head (c0 : ascii) (old' new b : string) :
  replace_go (String c0 old') new 0 (String c0 old' +:+ b)
  = new +:+ replace_go (String c0 old') new 0 b.
Proof.
  pose proof (prefix_append (String c0 old') b) as Hp.
  change (String c0 old' +:+ b) with (String c0 (old' +:+ b)) in *.
  cbn [replace_go]. rewrite Hp.
  replace (String.length (String c0 old') - 1)%nat with (String.length old')
    by (cbn [String.length]; lia).
  by rewrite replace_go_skip.
Qed.

Lemma prefix_lacking (c0 c : ascii) (old' s : string) :
  c ≠ c0 → String.prefix (String c0 old') (String c s) = false.
Proof. intros Hne. simpl. destruct (ascii_dec c0 c); [by subst|done]. Qed.

Lemma replace_go_lacking (c0 : ascii) (old' new a s : string) :
  lacks c0 a = true →
  replace_go (String c0 old') new 0 (a +:+ s)
  = a +:+ replace_go (String c0 old') new 0 s.
Proof.
  induction a as [|c a IH]; [done|]. cbn [lacks]. intros [Hc Ha]%andb_true_iff.
  apply negb_true_iff, bool_decide_eq_false in Hc.
  change (String c a +:+ s) with (String c (a +:+ s)).
  cbn [replace_go]. rewrite (prefix_lacking c0 c old' _ Hc).
  by rewrite IH.
Qed.

Lemma occurs_lacking (c0 : ascii) (old' a s : string) :
  lacks c0 a = true → occurs (String c0 old') (a +:+ s) = occurs (String c0 old') s.
Proof.
  induction a as [|c a IH]; [done|]. cbn [lacks]. intros [Hc Ha]%andb_true_iff.
  apply negb_true_iff, bool_decide_eq_false in Hc.
  change (String c a +:+ s) with (String c (a +:+ s)).
  cbn [occurs]. rewrite (prefix_lacking c0 c old' _ Hc). by rewrite IH.
Qed.

Lemma replace_absent (old new s : string) :
  occurs old s = false → replace s old new = s.
Proof.
  unfold replace. induction s as [|c s IH]; [done|].
  cbn [occurs]. intros [Hp Hs]%orb_false_iff.
  cbn [replace_go]. rewrite Hp. by rewrite IH.
Qed.

Lemma lookup_map {A B} (f : A → B) (l : list A) (i : nat) :
  map f l !! i = f <$> (l !! i).
Proof. revert i. induction l as [|x l IH]; intros [|i]; simpl; auto. Qed.

(** X16: [expanded_cmdline] has one token for each word of the command
    line.  A word without placeholder is kept; a word that ends in
    [__port__] after characters other than '_' ends in the decimal port
    instead; a word that ends in [__address__] after such characters
    ends in the address instead, provided the address does not itself
    hold [__port__]. *)
Theorem expanded_cmdline_interpolates
    (self : ControllerConfig) (i : nat) (tok a : string)
    (Htok : split (cmdline self) !! i = Some tok)
    (Ha : lacks "_" a = true) :
  length (expanded_cmdline self) = length (split (cmdline self))
  ∧ (occurs "__address__" tok = false → occurs "__port__" tok = false →
     expanded_cmdline self !! i = Some tok)
  ∧ (tok = a +:+ "__port__" →
     expanded_cmdline self !! i = Some (a +:+ pretty (port self)))
  ∧ (tok = a +:+ "__address__" → occurs "__port__" (address self) = false →
     expanded_cmdline self !! i = Some (a +:+ address self)).
Proof.
  unfold expanded_cmdline. rewrite !length_map, !lookup_map, Htok. cbn [fmap option_fmap option_map].
  split; [done|]. split; [|split].
  - intros Hno_a Hno_p. by rewrite (replace_absent _ _ _ Hno_a), (replace_absent _ _ _ Hno_p).
  - intros ->.
    rewrite (replace_absent "__address__")
      by (by rewrite (occurs_lacking "_" "_address__" a "__port__" Ha)).
    unfold replace. change "__port__" with ("__port__" +:+ EmptyString) at 2.
    rewrite (replace_go_lacking "_" "_port__" _ a _ Ha).
    rewrite (replace_go_head "_" "_port__"). cbn [replace_go].
    by rewrite append_nil_r.
  - intros -> Hno_p. unfold replace at 2.
    change "__address__" with ("__address__" +:+ EmptyString) at 2.
    rewrite (replace_go_lacking "_" "_address__" _ a _ Ha).
    rewrite (replace_go_head "_" "_address__"). cbn [replace_go].
    rewrite append_nil_r. unfold replace.
    rewrite (replace_go_lacking "_" "_port__" _ a _ Ha).
    by rewrite (replace_absent _ _ _ Hno_p : replace_go _ _ 0 _ = _).
Qed.

Lemma expanded_cmdline_witness :
  expanded_cmdline pox_config !! 5%nat = Some ("--port=" +:+ pretty 8888).
Proof.
  apply (expanded_cmdline_interpolates pox_config 5 "--port=__port__" "--port=");
    reflexivity.
Defined.

Lemma ControllerConfig_init_ok
    (cmd addr : string) (p : option Z) (cwd sync type : option string) (gen : port_gen) :
  cmd ≠ EmptyString →
  ∃ k, ControllerConfig_init cmd addr p cwd sync type gen = Ok k
       ∧ address (config k) = addr
       ∧ (draws_port p = true → port (config k) = gen ∧ next_port k = gen + 1)
       ∧ (∀ q, p = Some q → q ≠ 0 → port (config k) = q ∧ next_port k = gen).
Proof.
  intros Hcmd. unfold ControllerConfig_init.
  rewrite (bool_decide_eq_false_2 _ Hcmd).
  destruct p as [q|]; [destruct (Z.eqb_spec q 0) as [->|Hq]|];
    (eexists; split; [reflexivity|]); cbn [config address port next_port draws_port];
    (split; [reflexivity|]); split; try done.
  - intros q [= <-] Hq. done.
  - intros Hd. apply Z.eqb_eq in Hd. done.
  - intros q' [= <-] _. done.
Qed.

(** X15: constructing a ControllerConfig with an empty command line
    raises RuntimeError.  Otherwise a port given and not zero is kept
    and the port counter is left alone, while no port, or port zero,
    takes the counter's next number; two configurations made one after
    the other that way get consecutive ports and different uuids. *)
Theorem ControllerConfig_ports
    (cmd1 cmd2 addr1 addr2 : string) (port1 port2 : option Z)
    (cwd1 cwd2 sync1 sync2 type1 type2 : option string) (gen : port_gen)
    (Hcmd1 : cmd1 ≠ EmptyString) (Hcmd2 : cmd2 ≠ EmptyString) :
  ∃ k1 k2,
    ControllerConfig_init cmd1 addr1 port1 cwd1 sync1 type1 gen = Ok k1
    ∧ ControllerConfig_init cmd2 addr2 port2 cwd2 sync2 type2 (next_port k1) = Ok k2
    ∧ ControllerConfig_init EmptyString addr1 port1 cwd1 sync1 type1 gen
      = Raise RuntimeError
    ∧ (∀ p, port1 = Some p → p ≠ 0 →
         uuid (config k1) = (addr1, p) ∧ next_port k1 = gen)
    ∧ (draws_port port1 = true →
         uuid (config k1) = (addr1, gen) ∧ next_port k1 = gen + 1)
    ∧ (draws_port port1 = true → draws_port port2 = true →
         port (config k2) = port (config k1) + 1
         ∧ uuid (config k1) ≠ uuid (config k2)).
Proof.
  destruct (ControllerConfig_init_ok cmd1 addr1 port1 cwd1 sync1 type1 gen Hcmd1)
    as (k1 & Hk1 & Ha1 & Hdraw1 & Hkeep1).
  destruct (ControllerConfig_init_ok cmd2 addr2 port2 cwd2 sync2 type2 (next_port k1) Hcmd2)
    as (k2 & Hk2 & Ha2 & Hdraw2 & Hkeep2).
  exists k1, k2. split; [exact Hk1|]. split; [exact Hk2|]. split; [reflexivity|].
  unfold uuid. split; [|split].
  - intros p Hp Hnz. destruct (Hkeep1 p Hp Hnz) as [-> ->]. by rewrite Ha1.
  - intros Hd. destruct (Hdraw1 Hd) as [-> ->]. by rewrite Ha1.
  - intros Hd1 Hd2. destruct (Hdraw1 Hd1) as [Hp1 Hn1].
    destruct (Hdraw2 Hd2) as [Hp2 Hn2]. rewrite Hp1, Hp2, Hn1.
    split; [reflexivity|]. intros Heq. injection Heq as _ Heq. lia.
Qed.

Lemma ControllerConfig_ports_witness :
  ∃ k1 k2,
    ControllerConfig_init "./pox.py" "127.0.0.1" None None None None port_gen_start = Ok k1
    ∧ ControllerConfig_init "./pox.py" "127.0.0.1" (Some 0) None None None (next_port k1)
      = Ok k2
    ∧ ControllerConfig_init EmptyString "127.0.0.1" None None None None port_gen_start
      = Raise RuntimeError
    ∧ (∀ p, None = Some p → p ≠ 0 →
         uuid (config k1) = ("127.0.0.1", p) ∧ next_port k1 = port_gen_start)
    ∧ (draws_port None = true →
         uuid (config k1) = ("127.0.0.1", port_gen_start)
         ∧ next_port k1 = port_gen_start + 1)
    ∧ (draws_port None = true → draws_port (Some 0) = true →
         port (config k2) = port (config k1) + 1
         ∧ uuid (config k1) ≠ uuid (config k2)).
Proof.
  apply (ControllerConfig_ports "./pox.py" "./pox.py" "127.0.0.1" "127.0.0.1"
           None (Some 0) None None None None None None port_gen_start);
    discriminate.
Defined.

Lemma endswith_append (p suffix : string) : endswith (p +:+ suffix) suffix = true.
Proof.
  induction p as [|c p IH].
  - change (EmptyString +:+ suffix) with suffix.
    destruct suffix; cbn [endswith]; by rewrite bool_decide_eq_true_2.
  - change (String c p +:+ suffix) with (String c (p +:+ suffix)).
    cbn [endswith]. rewrite IH. apply orb_true_r.
Qed.

Lemma substring_append (p x : string) :
  String.substring 0 (String.length p) (p +:+ x) = p.
Proof.
  induction p as [|c p IH]; [by destruct x|].
  change (String c (String.substring 0 (String.length p) (p +:+ x)) = String c p).
  by rewrite IH.
Qed.

Lemma replace_slash (s : string) :
  lacks "/" (replace s "/" ".") = true
  ∧ String.length (replace s "/" ".") = String.length s.
Proof.
  unfold replace. induction s as [|c s [IH1 IH2]]; [done|].
  cbn [replace_go String.prefix].
  destruct (ascii_dec "/" c) as [<-|Hne].
  - replace (String.prefix EmptyString s) with true by (by destruct s).
    change (lacks "/" (String "." (replace_go "/" "." 0 s)) = true
            ∧ String.length (String "." (replace_go "/" "." 0 s))
              = String.length (String "/" s)).
    cbn [lacks String.length]. rewrite IH1, IH2. by split.
  - cbn [lacks String.length]. rewrite IH1, IH2.
    rewrite (bool_decide_eq_false_2 (c = "/"%char)) by congruence. by split.
Qed.

(** X17: a config given as a path ending in [.py] becomes the path
    without that ending and with every '/' turned into '.': no '/' is
    left and no character is lost; any other config name is taken as it
    is. *)
Theorem config_module_of_path (p config : string) :
  config_module (p +:+ ".py") = replace p "/" "."
  ∧ lacks "/" (config_module (p +:+ ".py")) = true
  ∧ String.length (config_module (p +:+ ".py")) = String.length p
  ∧ (endswith config ".py" = false → config_module config = config).
Proof.
  assert (config_module (p +:+ ".py") = replace p "/" ".") as Hmod.
  { unfold config_module. rewrite endswith_append, length_append.
    cbn [String.length]. rewrite Nat.add_sub. by rewrite substring_append. }
  rewrite Hmod. split; [done|]. split; [apply replace_slash|].
  split; [apply replace_slash|].
  unfold config_module. by intros ->.
Qed.
